(** * solana-scraper: the signer-discovery pipeline

    A shallow embedding of [src/main.ts] and of its sibling revision
    [src/unnamed/part_000].  Both scripts walk a list of program
    addresses, list one page of transaction signatures per address, fetch
    every listed transaction and collect the signer public keys in a
    JavaScript [Set]; the result is written as one [;]-separated line.

    The RPC client, the [PublicKey] class, the timer and the file system
    are external: they are taken as a [Platform] over an abstract
    [World], and every interaction with them is recorded in a trace.

    Left out: [dl.setDateFormat], which only sets how the logger prints
    dates, and [incrementValue], which no code calls. *)

From Stdlib Require Import List String Ascii ZArith Bool Lia.
Import ListNotations.

Local Open Scope string_scope.
Local Close Scope list_scope.
Local Open Scope list_scope.

Set Implicit Arguments.

(** ** JavaScript values used by the scripts *)

(** The exception value of a rejected promise or of a [throw]. *)
Definition JsError := string.

(** A value of type [number | null | undefined]; [null] and [undefined]
    are different values for [===]. *)
Inductive NumberOrNullish : Type :=
| JsNumber (n : Z)
| JsNull
| JsUndefined.

(** Outcome of a call that may throw (synchronously, or by rejecting the
    promise that is awaited). *)
Inductive Attempt (A : Type) : Type :=
| Ok (value : A)
| Err (error : JsError).

Arguments Ok {A} value.
Arguments Err {A} error.

(** [Set<string>]: a JavaScript [Set] iterates in insertion order, so it
    is a list in which [add] appends only values that are not yet there
    (strings are compared by SameValueZero, that is by content). *)
Module JSSet.

Definition t := list string.

Definition empty : t := [].

Definition has (s : t) (v : string) : bool := existsb (String.eqb v) s.

Definition add (s : t) (v : string) : t :=
  if has s v then s else s ++ [v].

Definition size (s : t) : Z := Z.of_nat (List.length s).

(** [Array.from(set)]: the elements in insertion order. *)
Definition Array_from (s : t) : list string := s.

(** Successive [add]s, left to right. *)
Definition add_all (s : t) (vs : list string) : t := fold_left add vs s.

End JSSet.

(** [Array.prototype.join] as ECMAScript defines it: the result [R]
    starts empty; at index [k > 0] the separator is appended before the
    element. *)
Fixpoint join_from (sep : string) (k : nat) (R : string)
    (elements : list string) : string :=
  match elements with
  | [] => R
  | element :: rest =>
      let R := if (0 <? k)%nat then (R ++ sep)%string else R in
      join_from sep (S k) (R ++ element)%string rest
  end.

Definition Array_join (elements : list string) (sep : string) : string :=
  join_from sep 0 "" elements.

(** The line feed of the string literal ["\n"]. *)
Definition LF : string := String (ascii_of_nat 10) EmptyString.

(** ** Data model of the RPC client (@solana/web3.js) *)

Record ConfirmedSignatureInfo : Type := {
  signature : string;
  slot : Z;
  blockTime : NumberOrNullish
}.

(** The options object passed to [getSignaturesForAddress]; [before] and
    [until] are the pagination cursors of the RPC method. *)
Record SignaturesForAddressOptions : Type := {
  before : option string;
  until : option string;
  limit : option Z
}.

Section Transactions.

Variable PublicKey : Type.

Record ParsedMessageAccount : Type := {
  pubkey : PublicKey;
  signer : bool
}.

Record ParsedMessage : Type := {
  accountKeys : option (list ParsedMessageAccount)
}.

Record ParsedTransaction : Type := {
  message : ParsedMessage
}.

Record ParsedTransactionWithMeta : Type := {
  transaction : ParsedTransaction
}.

End Transactions.

Arguments pubkey {PublicKey} _.
Arguments signer {PublicKey} _.
Arguments accountKeys {PublicKey} _.
Arguments message {PublicKey} _.
Arguments transaction {PublicKey} _.

(** ** Console output *)

Inductive ConsoleLevel : Type := Log | Info | Warn | Error.

(** The four marks of [log-symbols]. *)
Inductive LogSymbol : Type := SymInfo | SymSuccess | SymWarning | SymError.

(** One argument of a [console.*] call. *)
Inductive ConsoleArg : Type :=
| Sym (s : LogSymbol)
| Str (s : string)
| Num (n : Z)
| MaybeNum (n : NumberOrNullish)
| Strs (l : list string).

(** ** The platform and the trace *)

Section Platform.

Variables PublicKey World : Type.

(** A [Connection] object: the two RPC methods the scripts call.  The
    ledger may answer the same request differently over time, so each
    method reads and updates the [World]. *)
Record Connection : Type := {
  getSignaturesForAddress :
    PublicKey -> SignaturesForAddressOptions -> World ->
    Attempt (list ConfirmedSignatureInfo) * World;
  getParsedTransaction :
    string -> Z -> World ->
    Attempt (option (ParsedTransactionWithMeta PublicKey)) * World
}.

Record Platform : Type := {
  (** [new PublicKey(s)] throws on a string that is not a key. *)
  PublicKey_new : string -> Attempt PublicKey;
  PublicKey_toString : PublicKey -> string;
  (** [new Connection(url, commitment)] throws on a malformed endpoint. *)
  Connection_new : string -> string -> Attempt Connection;
  (** What [ms] milliseconds of waiting do to the world. *)
  elapse : Z -> World -> World;
  Deno_writeTextFile : string -> string -> World -> Attempt unit * World
}.

(** Everything the scripts do that is visible from outside. *)
Inductive Event : Type :=
| Listed (address : PublicKey) (options : SignaturesForAddressOptions)
         (response : Attempt (list ConfirmedSignatureInfo))
| Fetched (sig : string) (maxSupportedTransactionVersion : Z)
          (response : Attempt (option (ParsedTransactionWithMeta PublicKey)))
| Slept (ms : Z)
| Console (level : ConsoleLevel) (args : list ConsoleArg)
| Written (path content : string) (response : Attempt unit).

Record IO : Type := {
  world : World;
  trace : list Event
}.

Definition emit (e : Event) (io : IO) : IO :=
  {| world := world io; trace := trace io ++ [e] |}.

Definition console (level : ConsoleLevel) (args : list ConsoleArg)
    (io : IO) : IO :=
  emit (Console level args) io.

Variable platform : Platform.

(** [await sleep(ms)] *)
Definition sleep (ms : Z) (io : IO) : IO :=
  {| world := elapse platform ms (world io);
     trace := trace io ++ [Slept ms] |}.

Definition await_getSignaturesForAddress (connection : Connection)
    (address : PublicKey) (options : SignaturesForAddressOptions)
    (io : IO) : Attempt (list ConfirmedSignatureInfo) * IO :=
  let (response, w) :=
    getSignaturesForAddress connection address options (world io) in
  (response,
   {| world := w; trace := trace io ++ [Listed address options response] |}).

Definition await_getParsedTransaction (connection : Connection)
    (sig : string) (maxSupportedTransactionVersion : Z) (io : IO)
    : Attempt (option (ParsedTransactionWithMeta PublicKey)) * IO :=
  let (response, w) :=
    getParsedTransaction connection sig maxSupportedTransactionVersion
      (world io) in
  (response,
   {| world := w;
      trace := trace io
               ++ [Fetched sig maxSupportedTransactionVersion response] |}).

Definition await_writeTextFile (path content : string) (io : IO)
    : Attempt unit * IO :=
  let (response, w) := Deno_writeTextFile platform path content (world io) in
  (response,
   {| world := w; trace := trace io ++ [Written path content response] |}).

(** *** createCSV (identical in both scripts) *)

Definition csvContent (strings : list string) : string :=
  (Array_join strings ";" ++ LF)%string.

Definition createCSV (strings : list string) (filePath : string) (io : IO)
    : Attempt unit * IO :=
  match await_writeTextFile filePath (csvContent strings) io with
  | (Err error, io) => (Err error, io)
  | (Ok _, io) =>
      (Ok tt, console Log [Str ("CSV file created at: " ++ filePath)%string] io)
  end.

(** *** The skeleton of getInteractingAddresses

    Lines 34-54 and 112-116 are the same in both scripts: the loop over
    the addresses, the listing call and the loop over the listed
    signatures.  The scripts differ in the body of the inner loop, which
    is the parameter [body] here; [Cursor] is the type of the loop-local
    progress variable ([currentBlockTime], [currentBlockSlot]). *)

(** How one pass through the inner loop body ends: at its end or at a
    [continue], or at a [return]. *)
Inductive BodyFlow (Cursor : Type) : Type :=
| Continue (cursor : Cursor) (uniqueAddresses : JSSet.t)
| ReturnValue (value : list string).

Arguments ReturnValue {Cursor} value.

(** How a loop ends: it runs out of elements, or a [return] or an
    exception leaves the function. *)
Inductive Flow : Type :=
| Next (uniqueAddresses : JSSet.t)
| Return (value : list string)
| Raise (error : JsError).

Inductive Outcome : Type :=
| Returned (value : list string)
| Thrown (error : JsError).

Definition pageOptions : SignaturesForAddressOptions :=
  {| before := None; until := None; limit := Some 1000%Z |}.

Section Skeleton.

Variable Cursor : Type.
Variable cursor0 : Cursor.
Variable body :
  Connection -> ConfirmedSignatureInfo -> Cursor -> JSSet.t -> IO ->
  BodyFlow Cursor * IO.

(** [for (const signatureInfo of signatures) { ... }] *)
Fixpoint for_signatures (connection : Connection)
    (signatures : list ConfirmedSignatureInfo) (cursor : Cursor)
    (uniqueAddresses : JSSet.t) (io : IO) : Flow * IO :=
  match signatures with
  | [] => (Next uniqueAddresses, io)
  | signatureInfo :: rest =>
      match body connection signatureInfo cursor uniqueAddresses io with
      | (Continue cursor uniqueAddresses, io) =>
          for_signatures connection rest cursor uniqueAddresses io
      | (ReturnValue value, io) => (Return value, io)
      end
  end.

(** One pass through the body of the outer loop. *)
Definition contract_body (connection : Connection) (contract : string)
    (uniqueAddresses : JSSet.t) (io : IO) : Flow * IO :=
  match PublicKey_new platform contract with
  | Err error => (Raise error, io)
  | Ok contractKey =>
      let io :=
        console Info
          [Sym SymInfo;
           Str ("Fetching signatures for contract:"
                ++ PublicKey_toString platform contractKey)%string] io in
      match await_getSignaturesForAddress connection contractKey
              pageOptions io with
      | (Err error, io) => (Raise error, io)
      | (Ok signatures, io) =>
          for_signatures connection signatures cursor0 uniqueAddresses io
      end
  end.

(** [for (const contract of contractPublicKey) { ... }] *)
Fixpoint for_contracts (connection : Connection)
    (contractPublicKey : list string) (uniqueAddresses : JSSet.t)
    (io : IO) : Flow * IO :=
  match contractPublicKey with
  | [] => (Next uniqueAddresses, io)
  | contract :: rest =>
      match contract_body connection contract uniqueAddresses io with
      | (Next uniqueAddresses, io) =>
          for_contracts connection rest uniqueAddresses io
      | stop => stop
      end
  end.

Definition getInteractingAddresses (connectionUrl : string)
    (contractPublicKey : list string) (io : IO) : Outcome * IO :=
  match Connection_new platform connectionUrl "confirmed" with
  | Err error => (Thrown error, io)
  | Ok connection =>
      match for_contracts connection contractPublicKey JSSet.empty io with
      | (Next uniqueAddresses, io) =>
          (Returned (JSSet.Array_from uniqueAddresses), io)
      | (Return value, io) => (Returned value, io)
      | (Raise error, io) => (Thrown error, io)
      end
  end.

End Skeleton.

End Platform.

Arguments ReturnValue {Cursor} value.
Arguments Slept {PublicKey} ms.
Arguments Console {PublicKey} level args.
Arguments Written {PublicKey} path content response.

(** ** What a trace shows *)

Section Observations.

Variables PublicKey World : Type.
Variable platform : Platform PublicKey World.

(** The public keys, as strings, of the entries flagged as signers. *)
Definition signers_of (keys : list (ParsedMessageAccount PublicKey))
    : list string :=
  map (fun account => PublicKey_toString platform (pubkey account))
      (filter signer keys).

(** The account list of a fetch that is processed: the fetch succeeded,
    the transaction is there and it has an account list. *)
Definition processed_keys
    (response : Attempt (option (ParsedTransactionWithMeta PublicKey)))
    : option (list (ParsedMessageAccount PublicKey)) :=
  match response with
  | Ok (Some tx) => accountKeys (message (transaction tx))
  | _ => None
  end.

Definition signers_of_event (e : Event PublicKey) : list string :=
  match e with
  | Fetched _ _ response =>
      match processed_keys response with
      | Some keys => signers_of keys
      | None => []
      end
  | _ => []
  end.

(** Every signer key seen in a processed transaction, in trace order,
    with repetitions. *)
Definition observed_signers (evs : list (Event PublicKey)) : list string :=
  flat_map signers_of_event evs.

Definition is_console (e : Event PublicKey) : bool :=
  match e with Console _ _ => true | _ => false end.

Definition is_rpc (e : Event PublicKey) : bool :=
  match e with Listed _ _ _ | Fetched _ _ _ => true | _ => false end.

Definition is_rejected_fetch (e : Event PublicKey) : bool :=
  match e with Fetched _ _ (Err _) => true | _ => false end.

(** The trace without the console output. *)
Definition network (evs : list (Event PublicKey)) : list (Event PublicKey) :=
  filter (fun e => negb (is_console e)) evs.

Definition rpc_calls (evs : list (Event PublicKey))
    : list (Event PublicKey) :=
  filter is_rpc evs.

(** The listing requests: address and options, in order. *)
Definition listing_requests (evs : list (Event PublicKey))
    : list (PublicKey * SignaturesForAddressOptions) :=
  flat_map (fun e => match e with
                     | Listed address options _ => [(address, options)]
                     | _ => []
                     end) evs.

(** The signatures the listing calls returned, in order. *)
Definition listed_signatures (evs : list (Event PublicKey)) : list string :=
  flat_map (fun e => match e with
                     | Listed _ _ (Ok signatures) => map signature signatures
                     | _ => []
                     end) evs.

(** The signatures of the fetch requests, in order. *)
Definition fetch_requests (evs : list (Event PublicKey)) : list string :=
  flat_map (fun e => match e with
                     | Fetched sig _ _ => [sig]
                     | _ => []
                     end) evs.

Definition sleeps (evs : list (Event PublicKey)) : list Z :=
  flat_map (fun e => match e with Slept ms => [ms] | _ => [] end) evs.

(** A sequence of RPC calls with the waits that [delay_after] puts
    behind each of them. *)
Definition with_delays (delay_after : Event PublicKey -> list Z)
    (calls : list (Event PublicKey)) : list (Event PublicKey) :=
  flat_map (fun e => e :: map (@Slept PublicKey) (delay_after e)) calls.

(** Every RPC call is directly followed by a wait. *)
Fixpoint every_call_delayed (net : list (Event PublicKey)) : bool :=
  match net with
  | [] => true
  | e :: rest =>
      (negb (is_rpc e)
       || match rest with Slept _ :: _ => true | _ => false end)
      && every_call_delayed rest
  end.

(** [address] is the public key of an entry flagged as signer in a
    transaction that was fetched and had an account list. *)
Definition signer_of_processed (evs : list (Event PublicKey))
    (address : string) : Prop :=
  exists sig version tx keys account,
    In (Fetched sig version (Ok (Some tx))) evs
    /\ accountKeys (message (transaction tx)) = Some keys
    /\ In account keys
    /\ signer account = true
    /\ PublicKey_toString platform (pubkey account) = address.

(** The events a run adds to the trace it starts from. *)
Definition events_since (before after : IO PublicKey World)
    : list (Event PublicKey) :=
  skipn (List.length (trace before)) (trace after).

End Observations.

(** The values of a list at the place of their first occurrence. *)
Fixpoint first_occurrences (l : list string) : list string :=
  match l with
  | [] => []
  | x :: rest =>
      x :: filter (fun y => negb (String.eqb x y)) (first_occurrences rest)
  end.

(** ** src/main.ts *)

Module Main.
Section Script.

Variables PublicKey World : Type.
Variable platform : Platform PublicKey World.

(** The callback of [accountKeys.forEach], lines 96-108. *)
Definition forEach_callback (account : ParsedMessageAccount PublicKey)
  (st : JSSet.t * IO PublicKey World) : JSSet.t * IO PublicKey World :=
let (uniqueAddresses, io) := st in
if signer account then
  let uniqueAddresses :=
    JSSet.add uniqueAddresses
      (PublicKey_toString platform (pubkey account)) in
  (uniqueAddresses,
   console Info
     [Sym SymSuccess;
      Str "Found new unique address: ";
      Str (PublicKey_toString platform (pubkey account));
      Str "Unique addresses found so far: ";
      Num (JSSet.size uniqueAddresses)] io)
else st.

Definition forEach (accountKeys : list (ParsedMessageAccount PublicKey))
  (st : JSSet.t * IO PublicKey World) : JSSet.t * IO PublicKey World :=
fold_left (fun st account => forEach_callback account st) accountKeys st.

(** [currentBlockTime !== signatureInfo.blockTime] *)
Definition blockTime_differs (currentBlockTime blockTime : NumberOrNullish)
    : bool :=
match currentBlockTime, blockTime with
| JsNumber a, JsNumber b => negb (a =? b)%Z
| JsNull, JsNull => false
| JsUndefined, JsUndefined => false
| _, _ => true
end.

(** The body of the inner loop, lines 55-110. *)
Definition signature_body (connection : Connection PublicKey World)
  (signatureInfo : ConfirmedSignatureInfo) (currentBlockTime : NumberOrNullish)
  (uniqueAddresses : JSSet.t) (io : IO PublicKey World)
  : BodyFlow NumberOrNullish * IO PublicKey World :=
let io :=
  console Info
    [Sym SymInfo; Str "Fetching transaction: ";
     Str (signature signatureInfo)] io in
let '(currentBlockTime, io) :=
  if blockTime_differs currentBlockTime (blockTime signatureInfo) then
    (blockTime signatureInfo,
     console Info
       [Sym SymSuccess; Str "New block time!";
        MaybeNum (blockTime signatureInfo)] io)
  else (currentBlockTime, io) in
match await_getParsedTransaction connection (signature signatureInfo) 0 io
with
| (Err error, io) =>
    (* exit early if we get caught *)
    (ReturnValue (JSSet.Array_from uniqueAddresses),
     console Error
       [Sym SymError; Str "Error fetching transaction: "; Str error] io)
| (Ok None, io) =>
    (Continue currentBlockTime uniqueAddresses,
     console Warn [Sym SymWarning; Str "Transaction not found"] io)
| (Ok (Some tx), io) =>
    match accountKeys (message (transaction tx)) with
    | None =>
        (Continue currentBlockTime uniqueAddresses,
         console Warn [Sym SymWarning; Str "Message not found"] io)
    | Some keys =>
        let (uniqueAddresses, io) := forEach keys (uniqueAddresses, io) in
        (Continue currentBlockTime uniqueAddresses, sleep platform 5000 io)
    end
end.

Definition getInteractingAddresses :=
getInteractingAddresses platform (JsNumber 0%Z) signature_body.

(** The waits of this script: five seconds after a processed fetch. *)
Definition delay_after (e : Event PublicKey) : list Z :=
match e with
| Fetched _ _ response =>
    match processed_keys response with
    | Some _ => [5000%Z]
    | None => []
    end
| _ => []
end.

(** The script's entry point, lines 118-143. *)
Definition main (io : IO PublicKey World) : IO PublicKey World :=
let rpcUrl := "https://api.mainnet-beta.solana.com" in
let contracts :=
  ["LBUZKhRxPF3XUpBCjp4YzTKgLccjZhTSDM9YuVaPwxo";
   "675kPX9MHTjS2zt1qfr1NYHuzeLXfQM9H24wFSUt1Mp8";
   "2wT8Yq49kHgDzXuPxZSaeLaH1qbmGXtEyPy64bL7aD3c";
   "whirLbMiicVdio4qvUfM5KAg6Ct8VwpYzGff3uctyCc"] in
let CSVFilePath := "addreses.csv" in
match getInteractingAddresses rpcUrl contracts io with
| (Returned addresses, io) =>
    let io :=
      console Info
        [Sym SymSuccess; Str "Unique interacting addresses: ";
         Strs addresses] io in
    match createCSV platform addresses CSVFilePath io with
    | (Ok _, io) => io
    | (Err error, io) =>
        console Error
          [Sym SymError; Str "Error fetching interacting addresses: ";
           Str error] io
    end
| (Thrown error, io) =>
    console Error
      [Sym SymError; Str "Error fetching interacting addresses: ";
       Str error] io
end.

End Script.
End Main.

(** ** src/unnamed/part_000 *)

Module Part000.
Section Script.

Variables PublicKey World : Type.
Variable platform : Platform PublicKey World.

(** The callback of [accountKeys.forEach], lines 94-108. *)
Definition forEach_callback (account : ParsedMessageAccount PublicKey)
  (st : JSSet.t * IO PublicKey World) : JSSet.t * IO PublicKey World :=
let (uniqueAddresses, io) := st in
if signer account then
  let io :=
    if negb (JSSet.has uniqueAddresses
               (PublicKey_toString platform (pubkey account)))
    then
      console Info
        [Sym SymSuccess;
         Str "Found new unique address: ";
         Str (PublicKey_toString platform (pubkey account));
         Str (LF ++ "Total unique addresses: ")%string;
         Num (JSSet.size uniqueAddresses + 1)] io
    else io in
  (JSSet.add uniqueAddresses
     (PublicKey_toString platform (pubkey account)), io)
else st.

Definition forEach (accountKeys : list (ParsedMessageAccount PublicKey))
  (st : JSSet.t * IO PublicKey World) : JSSet.t * IO PublicKey World :=
fold_left (fun st account => forEach_callback account st) accountKeys st.

(** The body of the inner loop, lines 55-110. *)
Definition signature_body (connection : Connection PublicKey World)
  (signatureInfo : ConfirmedSignatureInfo) (currentBlockSlot : Z)
  (uniqueAddresses : JSSet.t) (io : IO PublicKey World)
  : BodyFlow Z * IO PublicKey World :=
let '(currentBlockSlot, io) :=
  if negb (currentBlockSlot =? slot signatureInfo)%Z then
    (slot signatureInfo,
     console Info
       [Sym SymInfo; Str "New block slot!"; Num (slot signatureInfo)] io)
  else (currentBlockSlot, io) in
match await_getParsedTransaction connection (signature signatureInfo) 0 io
with
| (Err error, io) =>
    let io :=
      console Error
        [Sym SymError; Str "Error fetching transaction: "; Str error] io in
    (* sleep for a ten seconds on error *)
    let io := console Log [Sym SymInfo; Str "Sleeping for 10 seconds"] io in
    let io := sleep platform 10000 io in
    let io := console Log [Sym SymInfo; Str "Continuing..."] io in
    (Continue currentBlockSlot uniqueAddresses, io)
| (Ok None, io) =>
    (Continue currentBlockSlot uniqueAddresses,
     console Warn [Sym SymWarning; Str "Transaction not found"] io)
| (Ok (Some tx), io) =>
    match accountKeys (message (transaction tx)) with
    | None =>
        (Continue currentBlockSlot uniqueAddresses,
         console Warn [Sym SymWarning; Str "Message not found"] io)
    | Some keys =>
        let (uniqueAddresses, io) := forEach keys (uniqueAddresses, io) in
        (Continue currentBlockSlot uniqueAddresses, sleep platform 100 io)
    end
end.

Definition getInteractingAddresses :=
getInteractingAddresses platform 0%Z signature_body.

(** The waits of this script: ten seconds after a failed fetch, a tenth
  of a second after a processed one. *)
Definition delay_after (e : Event PublicKey) : list Z :=
match e with
| Fetched _ _ (Err _) => [10000%Z]
| Fetched _ _ response =>
    match processed_keys response with
    | Some _ => [100%Z]
    | None => []
    end
| _ => []
end.

(** The script's entry point, lines 118-143. *)
Definition main (io : IO PublicKey World) : IO PublicKey World :=
let rpcUrl := "https://endpoints.omniatech.io/v1/sol/mainnet/public" in
let contracts :=
  ["LBUZKhRxPF3XUpBCjp4YzTKgLccjZhTSDM9YuVaPwxo";
   "675kPX9MHTjS2zt1qfr1NYHuzeLXfQM9H24wFSUt1Mp8";
   "2wT8Yq49kHgDzXuPxZSaeLaH1qbmGXtEyPy64bL7aD3c";
   "whirLbMiicVdio4qvUfM5KAg6Ct8VwpYzGff3uctyCc"] in
let CSVFilePath := "addreses1.csv" in
match getInteractingAddresses rpcUrl contracts io with
| (Returned addresses, io) =>
    let io :=
      console Info
        [Sym SymSuccess; Str "Unique interacting addresses: ";
         Strs addresses] io in
    match createCSV platform addresses CSVFilePath io with
    | (Ok _, io) => io
    | (Err error, io) =>
        console Error
          [Sym SymError; Str "Error fetching interacting addresses: ";
           Str error] io
    end
| (Thrown error, io) =>
    console Error
      [Sym SymError; Str "Error fetching interacting addresses: ";
       Str error] io
end.

End Script.
End Part000.


(** ** Summaries of a stretch of a run

    What the events [evs] added by a loop say about the set it started
    from and the flow it ended with.  [aborting] marks the events after
    which a script gives up; [delay_after] is its table of waits. *)

Section Summaries.

Variables PublicKey World : Type.
Variable platform : Platform PublicKey World.
Variable aborting : Event PublicKey -> bool.
Variable delay_after : Event PublicKey -> list Z.

(** The waits are exactly those of the table. *)
Definition paced (evs : list (Event PublicKey)) : Prop :=
  network evs = with_delays delay_after (rpc_calls evs).

Definition unaborted (evs : list (Event PublicKey)) : Prop :=
  filter aborting evs = [].

(** A [return] from inside the loops: the last two events are the
    aborting one and a console line, and the value is the set as it was
    before them. *)
Definition aborted_with (u : JSSet.t) (evs : list (Event PublicKey))
    (value : list string) : Prop :=
  exists pre a c,
    evs = pre ++ [a; c]
    /\ aborting a = true
    /\ is_console c = true
    /\ unaborted pre
    /\ value
       = JSSet.Array_from (JSSet.add_all u (observed_signers platform pre))
    /\ observed_signers platform evs = observed_signers platform pre.

Definition body_summary (Cursor : Type)
    (signatureInfo : ConfirmedSignatureInfo) (u : JSSet.t)
    (flow : BodyFlow Cursor) (evs : list (Event PublicKey)) : Prop :=
  listing_requests evs = []
  /\ listed_signatures evs = []
  /\ fetch_requests evs = [signature signatureInfo]
  /\ paced evs
  /\ match flow with
     | Continue _ u' =>
         u' = JSSet.add_all u (observed_signers platform evs)
         /\ unaborted evs
     | ReturnValue value => aborted_with u evs value
     end.

Definition signatures_summary (signatures : list ConfirmedSignatureInfo)
    (u : JSSet.t) (flow : Flow) (evs : list (Event PublicKey)) : Prop :=
  listing_requests evs = []
  /\ listed_signatures evs = []
  /\ paced evs
  /\ match flow with
     | Next u' =>
         u' = JSSet.add_all u (observed_signers platform evs)
         /\ unaborted evs
         /\ fetch_requests evs = map signature signatures
     | Return value => aborted_with u evs value
     | Raise _ => False
     end.

(** The listing requests are one per visited address, in order, each for
    one page of a thousand; [rest] is what was not reached. *)
Definition one_page_each (contracts : list string) (flow : Flow)
    (evs : list (Event PublicKey)) : Prop :=
  exists visited rest keys,
    contracts = visited ++ rest
    /\ Forall2 (fun c k => PublicKey_new platform c = Ok k) visited keys
    /\ listing_requests evs = map (fun k => (k, pageOptions)) keys
    /\ (forall u', flow = Next u' -> rest = []).

Definition contracts_summary (contracts : list string) (u : JSSet.t)
    (flow : Flow) (evs : list (Event PublicKey)) : Prop :=
  paced evs
  /\ one_page_each contracts flow evs
  /\ match flow with
     | Next u' =>
         u' = JSSet.add_all u (observed_signers platform evs)
         /\ unaborted evs
         /\ fetch_requests evs = listed_signatures evs
     | Return value => aborted_with u evs value
     | Raise _ =>
         unaborted evs /\ fetch_requests evs = listed_signatures evs
     end.

End Summaries.

(** ** The two scripts side by side *)

Inductive Script : Type :=
| MainTs       (* src/main.ts: a failed fetch ends the run *)
| Part000Ts.   (* src/unnamed/part_000: a failed fetch is skipped *)

Section Scripts.

Variables PublicKey World : Type.
Variable platform : Platform PublicKey World.

Definition run_script (script : Script) (connectionUrl : string)
    (contractPublicKey : list string) (io : IO PublicKey World)
    : Outcome * IO PublicKey World :=
  match script with
  | MainTs =>
      Main.getInteractingAddresses platform connectionUrl
        contractPublicKey io
  | Part000Ts =>
      Part000.getInteractingAddresses platform connectionUrl
        contractPublicKey io
  end.

(** The outer loop of a script, from any set. *)
Definition run_contracts (script : Script)
    (connection : Connection PublicKey World) (contracts : list string)
    (uniqueAddresses : JSSet.t) (io : IO PublicKey World)
    : Flow * IO PublicKey World :=
  match script with
  | MainTs =>
      for_contracts platform (JsNumber 0%Z) (Main.signature_body platform)
        connection contracts uniqueAddresses io
  | Part000Ts =>
      for_contracts platform 0%Z (Part000.signature_body platform)
        connection contracts uniqueAddresses io
  end.

Definition callback_of (script : Script)
    : ParsedMessageAccount PublicKey -> JSSet.t * IO PublicKey World ->
      JSSet.t * IO PublicKey World :=
  match script with
  | MainTs => Main.forEach_callback platform
  | Part000Ts => Part000.forEach_callback platform
  end.

Definition delay_table (script : Script) : Event PublicKey -> list Z :=
  match script with
  | MainTs => @Main.delay_after PublicKey
  | Part000Ts => @Part000.delay_after PublicKey
  end.

(** The events after which a script returns early. *)
Definition gives_up (script : Script) : Event PublicKey -> bool :=
  match script with
  | MainTs => @is_rejected_fetch PublicKey
  | Part000Ts => fun _ => false
  end.

End Scripts.

(** ** A scripted ledger

    A small concrete platform: keys are their own strings, the world is a
    clock in milliseconds, and the ledger answers by fixed tables. *)

Module Fixture.

Definition account (key : string) (is_signer : bool)
    : ParsedMessageAccount string :=
  {| pubkey := key; signer := is_signer |}.

Definition parsed (keys : option (list (ParsedMessageAccount string)))
    : ParsedTransactionWithMeta string :=
  {| transaction := {| message := {| accountKeys := keys |} |} |}.

Definition info (sig : string) (s : Z) : ConfirmedSignatureInfo :=
  {| signature := sig; slot := s; blockTime := JsNumber (1700000000 + s)%Z |}.

Definition ledger_signatures (address : string)
    : Attempt (list ConfirmedSignatureInfo) :=
  if address =? "Program1" then Ok [info "sigA" 3; info "sigB" 2]
  else if address =? "Program2" then Ok [info "sigFail" 5; info "sigB" 4]
  else if address =? "Program3" then
    Ok [info "sigGone" 7; info "sigNoKeys" 6; info "sigA" 6]
  else if address =? "Program4" then Ok [info "sigGone" 8]
  else if address =? "Down" then Err "503 Service Unavailable"
  else Ok [].

Definition ledger_transaction (sig : string)
    : Attempt (option (ParsedTransactionWithMeta string)) :=
  if sig =? "sigA" then
    Ok (Some (parsed (Some [account "Alice" true; account "Vault" false;
                            account "Bob" true])))
  else if sig =? "sigB" then
    Ok (Some (parsed (Some [account "Bob" true; account "Alice" true;
                            account "Carol" true])))
  else if sig =? "sigFail" then Err "429 Too Many Requests"
  else if sig =? "sigNoKeys" then Ok (Some (parsed None))
  else Ok None.

Definition connection : Connection string Z :=
  {| getSignaturesForAddress := fun address _ clock =>
       (ledger_signatures address, clock);
     getParsedTransaction := fun sig _ clock =>
       (ledger_transaction sig, clock) |}.

Definition platform : Platform string Z :=
  {| PublicKey_new := fun s =>
       if s =? "" then Err "Invalid public key input" else Ok s;
     PublicKey_toString := fun key => key;
     Connection_new := fun url _ =>
       if prefix "http" url then Ok connection
       else Err "Endpoint URL must start with http: or https:";
     elapse := fun ms clock => (clock + ms)%Z;
     Deno_writeTextFile := fun _ _ clock => (Ok tt, clock) |}.

Definition start : IO string Z := {| world := 0%Z; trace := [] |}.

Definition url : string := "https://api.mainnet-beta.solana.com".

(** src/main.ts on three programs: the second one's first fetch fails. *)
Definition abort_run : Outcome * IO string Z :=
  run_script platform MainTs url ["Program1"; "Program2"; "Program3"] start.

(** src/unnamed/part_000 over a failed fetch, an absent transaction and
    a transaction without account list. *)
Definition skip_run : Outcome * IO string Z :=
  run_script platform Part000Ts url ["Program2"; "Program3"] start.

(** Either script on a program whose only transaction is absent. *)
Definition absent_run (script : Script) : Outcome * IO string Z :=
  run_script platform script url ["Program4"] start.

End Fixture.

(** ** More of what a trace shows *)

(** The values of a list with their running number, counting from [n]. *)
Fixpoint numbered (n : Z) (l : list string) : list (string * Z) :=
  match l with
  | [] => []
  | x :: rest => (x, n) :: numbered (n + 1) rest
  end.

(** The values of a sequence that differ from the one before them, [prev]
    standing before the first. *)
Fixpoint slot_changes (prev : Z) (slots : list Z) : list Z :=
  match slots with
  | [] => []
  | s :: rest =>
      (if (prev =? s)%Z then [] else [s]) ++ slot_changes s rest
  end.

Section MoreObservations.

Variables PublicKey World : Type.
Variable platform : Platform PublicKey World.

Definition is_rejected_listing (e : Event PublicKey) : bool :=
  match e with Listed _ _ (Err _) => true | _ => false end.

(** The [maxSupportedTransactionVersion] of the fetch requests. *)
Definition fetch_versions (evs : list (Event PublicKey)) : list Z :=
  flat_map (fun e => match e with
                     | Fetched _ version _ => [version]
                     | _ => []
                     end) evs.

(** The progress lines ["Found new unique address: "]: the address and
    the total they print. *)
Definition found_reports (evs : list (Event PublicKey))
    : list (string * Z) :=
  flat_map (fun e => match e with
                     | Console Info
                         [Sym SymSuccess; Str label; Str address; Str _;
                          Num total] =>
                         if label =? "Found new unique address: "
                         then [(address, total)] else []
                     | _ => []
                     end) evs.

(** The progress lines ["New block slot!"] of src/unnamed/part_000. *)
Definition slot_reports (evs : list (Event PublicKey)) : list Z :=
  flat_map (fun e => match e with
                     | Console Info [Sym SymInfo; Str label; Num s] =>
                         if label =? "New block slot!" then [s] else []
                     | _ => []
                     end) evs.

(** The slot changes within each listed page, a page starting from 0. *)
Definition listed_slot_changes (evs : list (Event PublicKey)) : list Z :=
  flat_map (fun e => match e with
                     | Listed _ _ (Ok signatures) =>
                         slot_changes 0 (map slot signatures)
                     | _ => []
                     end) evs.

(** The files the run tried to write: path and content. *)
Definition write_attempts (evs : list (Event PublicKey))
    : list (string * string) :=
  flat_map (fun e => match e with
                     | Written path content _ => [(path, content)]
                     | _ => []
                     end) evs.

(** *** One pass through the inner loop body, as events

    The console lines of [accountKeys.forEach] from the set [u], and
    all events of one pass given the ledger's answer [response]. *)

Fixpoint main_found_lines (u : JSSet.t)
    (keys : list (ParsedMessageAccount PublicKey))
    : list (Event PublicKey) :=
  match keys with
  | [] => []
  | account :: rest =>
      if signer account then
        let address := PublicKey_toString platform (pubkey account) in
        Console Info
          [Sym SymSuccess; Str "Found new unique address: "; Str address;
           Str "Unique addresses found so far: ";
           Num (JSSet.size (JSSet.add u address))]
        :: main_found_lines (JSSet.add u address) rest
      else main_found_lines u rest
  end.

Fixpoint part000_found_lines (u : JSSet.t)
    (keys : list (ParsedMessageAccount PublicKey))
    : list (Event PublicKey) :=
  match keys with
  | [] => []
  | account :: rest =>
      if signer account then
        let address := PublicKey_toString platform (pubkey account) in
        (if JSSet.has u address then []
         else [Console Info
                 [Sym SymSuccess; Str "Found new unique address: ";
                  Str address; Str (LF ++ "Total unique addresses: ")%string;
                  Num (JSSet.size u + 1)]])
        ++ part000_found_lines (JSSet.add u address) rest
      else part000_found_lines u rest
  end.

Definition main_pass_events (signatureInfo : ConfirmedSignatureInfo)
    (currentBlockTime : NumberOrNullish) (u : JSSet.t)
    (response : Attempt (option (ParsedTransactionWithMeta PublicKey)))
    : list (Event PublicKey) :=
  [Console Info
     [Sym SymInfo; Str "Fetching transaction: ";
      Str (signature signatureInfo)]]
  ++ (if Main.blockTime_differs currentBlockTime (blockTime signatureInfo)
      then [Console Info
              [Sym SymSuccess; Str "New block time!";
               MaybeNum (blockTime signatureInfo)]]
      else [])
  ++ [Fetched (signature signatureInfo) 0 response]
  ++ match response with
     | Err error =>
         [Console Error
            [Sym SymError; Str "Error fetching transaction: "; Str error]]
     | Ok None => [Console Warn [Sym SymWarning; Str "Transaction not found"]]
     | Ok (Some tx) =>
         match accountKeys (message (transaction tx)) with
         | None => [Console Warn [Sym SymWarning; Str "Message not found"]]
         | Some keys => main_found_lines u keys ++ [Slept 5000]
         end
     end.

Definition part000_pass_events (signatureInfo : ConfirmedSignatureInfo)
    (currentBlockSlot : Z) (u : JSSet.t)
    (response : Attempt (option (ParsedTransactionWithMeta PublicKey)))
    : list (Event PublicKey) :=
  (if negb (currentBlockSlot =? slot signatureInfo)%Z
   then [Console Info
           [Sym SymInfo; Str "New block slot!"; Num (slot signatureInfo)]]
   else [])
  ++ [Fetched (signature signatureInfo) 0 response]
  ++ match response with
     | Err error =>
         [Console Error
            [Sym SymError; Str "Error fetching transaction: "; Str error];
          Console Log [Sym SymInfo; Str "Sleeping for 10 seconds"];
          Slept 10000;
          Console Log [Sym SymInfo; Str "Continuing..."]]
     | Ok None => [Console Warn [Sym SymWarning; Str "Transaction not found"]]
     | Ok (Some tx) =>
         match accountKeys (message (transaction tx)) with
         | None => [Console Warn [Sym SymWarning; Str "Message not found"]]
         | Some keys => part000_found_lines u keys ++ [Slept 100]
         end
     end.

(** The set after a pass that goes on. *)
Definition set_after_pass (u : JSSet.t)
    (response : Attempt (option (ParsedTransactionWithMeta PublicKey)))
    : JSSet.t :=
  match processed_keys response with
  | Some keys => JSSet.add_all u (signers_of platform keys)
  | None => u
  end.

(** The answers of a ledger do not depend on when it is asked. *)
Definition time_independent (connection : Connection PublicKey World)
    : Prop :=
  (forall address options w w',
      fst (getSignaturesForAddress connection address options w)
      = fst (getSignaturesForAddress connection address options w'))
  /\ (forall sig version w w',
        fst (getParsedTransaction connection sig version w)
        = fst (getParsedTransaction connection sig version w')).

(** *** The entry points *)

Definition main_of (script : Script) (io : IO PublicKey World)
    : IO PublicKey World :=
  match script with
  | MainTs => Main.main platform io
  | Part000Ts => Part000.main platform io
  end.

End MoreObservations.

Definition rpcUrl_of (script : Script) : string :=
  match script with
  | MainTs => "https://api.mainnet-beta.solana.com"
  | Part000Ts => "https://endpoints.omniatech.io/v1/sol/mainnet/public"
  end.

Definition CSVFilePath_of (script : Script) : string :=
  match script with
  | MainTs => "addreses.csv"
  | Part000Ts => "addreses1.csv"
  end.

(** The four program addresses both entry points scan. *)
Definition contracts_of_main : list string :=
  ["LBUZKhRxPF3XUpBCjp4YzTKgLccjZhTSDM9YuVaPwxo";
   "675kPX9MHTjS2zt1qfr1NYHuzeLXfQM9H24wFSUt1Mp8";
   "2wT8Yq49kHgDzXuPxZSaeLaH1qbmGXtEyPy64bL7aD3c";
   "whirLbMiicVdio4qvUfM5KAg6Ct8VwpYzGff3uctyCc"].

(** ** incrementValue (lines 23-26, the same in both scripts)

    A [Map<string, number>] iterates in insertion order and [set] on a
    present key keeps its place, so it is an association list.  The
    counts are integers; [number] arithmetic on integers is exact while
    they stay below 2^53 in size, which the properties assume. *)

Module JSMap.

Definition t := list (string * Z).

Definition empty : t := [].

Fixpoint get (m : t) (key : string) : option Z :=
  match m with
  | [] => None
  | (k, v) :: rest => if k =? key then Some v else get rest key
  end.

Fixpoint set (m : t) (key : string) (value : Z) : t :=
  match m with
  | [] => [(key, value)]
  | (k, v) :: rest =>
      if k =? key then (k, value) :: rest else (k, v) :: set rest key value
  end.

Definition keys (m : t) : list string := map fst m.

End JSMap.

(** The largest size up to which adding one to an integer [number] is
    exact. *)
Definition MAX_SAFE : Z := (2 ^ 53)%Z.

Definition incrementValue (map : JSMap.t) (key : string) : JSMap.t :=
  let currentValue :=
    (* map.get(key) || 0: undefined and 0 are both falsy *)
    match JSMap.get map key with
    | Some v => if (v =? 0)%Z then 0%Z else v
    | None => 0%Z
    end in
  JSMap.set map key (currentValue + 1)%Z.

(** ** A ledger with failures, and a disk that is full *)

Module Scenario.

(** The file system refuses every write. *)
Definition read_only : Platform string Z :=
  {| PublicKey_new := PublicKey_new Fixture.platform;
     PublicKey_toString := PublicKey_toString Fixture.platform;
     Connection_new := Connection_new Fixture.platform;
     elapse := elapse Fixture.platform;
     Deno_writeTextFile := fun _ _ clock => (Err "PermissionDenied", clock) |}.

(** src/main.ts on a program that lists and one whose listing fails. *)
Definition down_run (script : Script) : Outcome * IO string Z :=
  run_script Fixture.platform script Fixture.url
    ["Program1"; "Down"; "Program2"] Fixture.start.

(** An address that is not a key, after one that is. *)
Definition bad_key_run (script : Script) : Outcome * IO string Z :=
  run_script Fixture.platform script Fixture.url
    ["Program1"; ""; "Program2"] Fixture.start.

End Scenario.

(** * Properties *)

(** ** The insertion-ordered set *)

Module JSSetFacts.
Import JSSet.

Lemma has_In (s : t) (v : string) : has s v = true <-> In v s.
Proof.
  unfold has. rewrite existsb_exists. split.
  - intros (x & Hx & Heq). apply String.eqb_eq in Heq. now subst.
  - intros Hin. exists v. split; [assumption | apply String.eqb_refl].
Qed.

Lemma has_not_In (s : t) (v : string) : has s v = false <-> ~ In v s.
Proof.
  rewrite <- has_In. destruct (has s v); split; congruence.
Qed.

Lemma add_present (s : t) (v : string) : has s v = true -> add s v = s.
Proof. unfold add. now intros ->. Qed.

Lemma add_fresh (s : t) (v : string) :
  has s v = false -> add s v = s ++ [v].
Proof. unfold add. now intros ->. Qed.

Lemma add_In (s : t) (v x : string) : In x (add s v) <-> In x s \/ x = v.
Proof.
  unfold add. destruct (has s v) eqn:Hhas.
  - apply has_In in Hhas. split; [now left | intros [H | ->]; assumption].
  - rewrite in_app_iff. simpl. intuition congruence.
Qed.

Lemma add_NoDup (s : t) (v : string) : NoDup s -> NoDup (add s v).
Proof.
  intros Hs. unfold add. destruct (has s v) eqn:Hhas; [assumption |].
  apply has_not_In in Hhas.
  apply NoDup_app; [assumption | repeat constructor; simpl; tauto |].
  intros x Hx [<- | []]. contradiction.
Qed.

Lemma add_all_app (s : t) (vs ws : list string) :
  add_all s (vs ++ ws) = add_all (add_all s vs) ws.
Proof. apply fold_left_app. Qed.

Lemma add_all_In (vs : list string) :
  forall (s : t) (x : string), In x (add_all s vs) <-> In x s \/ In x vs.
Proof.
  induction vs as [| v vs IH]; intros s x; simpl.
  - tauto.
  - unfold add_all in *. simpl. rewrite IH, add_In. intuition congruence.
Qed.

Lemma add_all_NoDup (vs : list string) :
  forall s : t, NoDup s -> NoDup (add_all s vs).
Proof.
  induction vs as [| v vs IH]; intros s Hs; simpl; [assumption |].
  apply IH, add_NoDup, Hs.
Qed.

Lemma filter_filter (A : Type) (p q : A -> bool) (l : list A) :
  filter p (filter q l) = filter (fun x => q x && p x) l.
Proof.
  induction l as [| a l IH]; simpl; [reflexivity |].
  destruct (q a); simpl; [destruct (p a) |]; now rewrite IH.
Qed.

(** [add_all] extends the set by the values that are new to it, each at
    the place of its first occurrence. *)
Lemma add_all_first_occurrences (vs : list string) :
  forall s : t,
    add_all s vs
    = s ++ filter (fun y => negb (has s y)) (first_occurrences vs).
Proof.
  induction vs as [| v vs IH]; intros s; simpl.
  - now rewrite app_nil_r.
  - unfold add_all in *. simpl. rewrite IH. unfold add.
    destruct (has s v) eqn:Hhas; simpl.
    + f_equal. rewrite filter_filter. apply filter_ext. intros y.
      destruct (String.eqb_spec v y) as [<- | Hne]; simpl;
        [now rewrite Hhas | reflexivity].
    + rewrite <- app_assoc. simpl. do 2 f_equal.
      rewrite filter_filter. apply filter_ext. intros y.
      unfold has. rewrite existsb_app. simpl. rewrite orb_false_r.
      rewrite negb_orb, (String.eqb_sym y v). apply andb_comm.
Qed.

Lemma add_all_extends (s : t) (vs : list string) :
  exists ext, add_all s vs = s ++ ext.
Proof. eexists. apply add_all_first_occurrences. Qed.

Lemma add_all_empty (vs : list string) :
  add_all empty vs = first_occurrences vs.
Proof.
  rewrite add_all_first_occurrences. simpl.
  induction (first_occurrences vs) as [| y l IH]; simpl; congruence.
Qed.

End JSSetFacts.

(** ** Stretches of a trace compose *)

Section TraceFacts.

Variables PublicKey World : Type.
Variable platform : Platform PublicKey World.
Variable aborting : Event PublicKey -> bool.
Variable delay_after : Event PublicKey -> list Z.

Local Abbreviation Event := (Event PublicKey).
Local Abbreviation obs := (observed_signers platform).

Lemma observed_signers_app (a b : list Event) :
  obs (a ++ b) = obs a ++ obs b.
Proof. apply flat_map_app. Qed.

Lemma listing_requests_app (a b : list Event) :
  listing_requests (a ++ b) = listing_requests a ++ listing_requests b.
Proof. apply flat_map_app. Qed.

Lemma listed_signatures_app (a b : list Event) :
  listed_signatures (a ++ b) = listed_signatures a ++ listed_signatures b.
Proof. apply flat_map_app. Qed.

Lemma fetch_requests_app (a b : list Event) :
  fetch_requests (a ++ b) = fetch_requests a ++ fetch_requests b.
Proof. apply flat_map_app. Qed.

Lemma network_app (a b : list Event) :
  network (a ++ b) = network a ++ network b.
Proof. apply filter_app. Qed.

Lemma rpc_calls_app (a b : list Event) :
  rpc_calls (a ++ b) = rpc_calls a ++ rpc_calls b.
Proof. apply filter_app. Qed.

Lemma with_delays_app (a b : list Event) :
  with_delays delay_after (a ++ b)
  = with_delays delay_after a ++ with_delays delay_after b.
Proof. apply flat_map_app. Qed.

Lemma paced_nil : paced delay_after (@nil Event).
Proof. reflexivity. Qed.

Lemma paced_app (a b : list Event) :
  paced delay_after a -> paced delay_after b -> paced delay_after (a ++ b).
Proof.
  unfold paced. intros Ha Hb.
  now rewrite network_app, rpc_calls_app, with_delays_app, Ha, Hb.
Qed.

Lemma unaborted_app (a b : list Event) :
  unaborted aborting a -> unaborted aborting b -> unaborted aborting (a ++ b).
Proof. unfold unaborted. intros Ha Hb. now rewrite filter_app, Ha, Hb. Qed.

Lemma unaborted_app_inv (a b : list Event) :
  unaborted aborting (a ++ b) ->
  unaborted aborting a /\ unaborted aborting b.
Proof.
  unfold unaborted. rewrite filter_app. intros H.
  now apply app_eq_nil in H.
Qed.

(** Console lines leave no mark on any of the observations. *)
Section ConsoleOnly.

Variable logs : list Event.
Hypothesis only_console : forallb (@is_console PublicKey) logs = true.

Lemma console_flat_map (X : Type) (g : Event -> list X) :
  (forall level args, g (Console level args) = []) ->
  flat_map g logs = [].
Proof.
  intros Hg. induction logs as [| e l IH]; simpl in *; [reflexivity |].
  apply andb_prop in only_console as [He Hl].
  destruct e; try discriminate. rewrite Hg. now apply IH.
Qed.

Lemma console_filter (p : Event -> bool) :
  (forall level args, p (Console level args) = false) ->
  filter p logs = [].
Proof.
  intros Hp. induction logs as [| e l IH]; simpl in *; [reflexivity |].
  apply andb_prop in only_console as [He Hl].
  destruct e; try discriminate. rewrite Hp. now apply IH.
Qed.

Lemma console_observed : obs logs = [].
Proof. now apply console_flat_map. Qed.

Lemma console_listing : listing_requests logs = [].
Proof. now apply console_flat_map. Qed.

Lemma console_listed : listed_signatures logs = [].
Proof. now apply console_flat_map. Qed.

Lemma console_fetch : fetch_requests logs = [].
Proof. now apply console_flat_map. Qed.

Lemma console_network : network logs = [].
Proof. now apply console_filter. Qed.

Lemma console_rpc : rpc_calls logs = [].
Proof. now apply console_filter. Qed.

Lemma console_sleeps : sleeps logs = [].
Proof. now apply console_flat_map. Qed.

End ConsoleOnly.

(** What ran before an abort stays in front of it. *)
Lemma aborted_with_prepend (u : JSSet.t) (a b : list Event)
    (value : list string) :
  unaborted aborting a ->
  aborted_with platform aborting (JSSet.add_all u (obs a)) b value ->
  aborted_with platform aborting u (a ++ b) value.
Proof.
  intros Ha (pre & x & c & -> & Hx & Hc & Hpre & -> & Hobs).
  exists (a ++ pre), x, c. repeat split.
  - now rewrite app_assoc.
  - assumption.
  - assumption.
  - now apply unaborted_app.
  - now rewrite observed_signers_app, JSSetFacts.add_all_app.
  - now rewrite observed_signers_app, Hobs, <- observed_signers_app.
Qed.

End TraceFacts.

(** ** The two loops, for any loop body that meets its summary *)

Section SkeletonFacts.

Variables PublicKey World : Type.
Variable platform : Platform PublicKey World.
Variable aborting : Event PublicKey -> bool.
Variable delay_after : Event PublicKey -> list Z.
Variable Cursor : Type.
Variable cursor0 : Cursor.
Variable body :
  Connection PublicKey World -> ConfirmedSignatureInfo -> Cursor ->
  JSSet.t -> IO PublicKey World -> BodyFlow Cursor * IO PublicKey World.

Hypothesis aborting_listed :
  forall address options response,
    aborting (Listed address options response) = false.
Hypothesis aborting_console :
  forall level args, aborting (Console level args) = false.
Hypothesis delay_listed :
  forall address options response,
    delay_after (Listed address options response) = [].
Hypothesis body_spec :
  forall connection signatureInfo cursor u io flow io',
    body connection signatureInfo cursor u io = (flow, io') ->
    exists evs,
      trace io' = trace io ++ evs
      /\ body_summary platform aborting delay_after signatureInfo u flow evs.

Lemma for_signatures_spec (connection : Connection PublicKey World)
    (signatures : list ConfirmedSignatureInfo) :
  forall cursor u io flow io',
    for_signatures body connection signatures cursor u io = (flow, io') ->
    exists evs,
      trace io' = trace io ++ evs
      /\ signatures_summary platform aborting delay_after
           signatures u flow evs.
Proof.
  induction signatures as [| signatureInfo rest IH];
    intros cursor u io flow io' Hrun; simpl in Hrun.
  - injection Hrun as <- <-. exists []. rewrite app_nil_r.
    repeat split; reflexivity.
  - destruct (body connection signatureInfo cursor u io)
      as [[cursor1 u1 | value] io1] eqn:Hbody.
    + apply body_spec in Hbody
        as (evs1 & Ht1 & Hl1 & Hs1 & Hf1 & Hp1 & -> & Hu1).
      apply IH in Hrun as (evs2 & Ht2 & Hl2 & Hs2 & Hp2 & Hflow).
      exists (evs1 ++ evs2). split; [now rewrite Ht2, Ht1, app_assoc |].
      split; [now rewrite listing_requests_app, Hl1, Hl2 |].
      split; [now rewrite listed_signatures_app, Hs1, Hs2 |].
      split; [now apply paced_app |].
      destruct flow as [u' | value | error].
      * destruct Hflow as (-> & Hu2 & Hf2). repeat split.
        -- now rewrite observed_signers_app, JSSetFacts.add_all_app.
        -- now apply unaborted_app.
        -- now rewrite fetch_requests_app, Hf1, Hf2.
      * now apply aborted_with_prepend.
      * assumption.
    + injection Hrun as <- <-.
      apply body_spec in Hbody as (evs1 & Ht1 & Hl1 & Hs1 & Hf1 & Hp1 & Hab).
      exists evs1. repeat split; assumption.
Qed.

Lemma contract_body_spec (connection : Connection PublicKey World)
    (contract : string) (u : JSSet.t) (io : IO PublicKey World)
    (flow : Flow) (io' : IO PublicKey World) :
  contract_body platform cursor0 body connection contract u io
  = (flow, io') ->
  exists evs,
    trace io' = trace io ++ evs
    /\ paced delay_after evs
    /\ match PublicKey_new platform contract with
       | Ok key => listing_requests evs = [(key, pageOptions)]
       | Err _ => evs = [] /\ exists error, flow = Raise error
       end
    /\ match flow with
       | Next u' =>
           u' = JSSet.add_all u (observed_signers platform evs)
           /\ unaborted aborting evs
           /\ fetch_requests evs = listed_signatures evs
       | Return value => aborted_with platform aborting u evs value
       | Raise _ =>
           unaborted aborting evs
           /\ fetch_requests evs = listed_signatures evs
       end.
Proof.
  unfold contract_body. intros Hrun.
  destruct (PublicKey_new platform contract) as [key | error].
  - unfold await_getSignaturesForAddress in Hrun. simpl in Hrun.
    destruct (getSignaturesForAddress connection key pageOptions (world io))
      as [[signatures | error] w] eqn:Hlist.
    + apply for_signatures_spec in Hrun
        as (evs & Ht & Hl & Hs & Hp & Hflow). simpl in Ht.
      match type of Ht with
      | _ = (_ ++ [?c]) ++ [?l] ++ _ => exists ([c; l] ++ evs)
      | _ = ((_ ++ [?c]) ++ [?l]) ++ _ => exists ([c; l] ++ evs)
      end.
      split; [now rewrite Ht, <- !app_assoc |].
      split.
      { apply paced_app; [| assumption].
        unfold paced. simpl. now rewrite delay_listed. }
      split; [now rewrite listing_requests_app, Hl |].
      destruct flow as [u' | value | error].
      * destruct Hflow as (-> & Hu & Hf). repeat split.
        -- apply unaborted_app; [| assumption].
           unfold unaborted. simpl.
           now rewrite aborting_console, aborting_listed.
        -- rewrite fetch_requests_app, listed_signatures_app, Hs, Hf.
           simpl. now rewrite !app_nil_r.
      * apply aborted_with_prepend; [| exact Hflow].
        unfold unaborted. simpl.
        now rewrite aborting_console, aborting_listed.
      * destruct Hflow.
    + injection Hrun as <- <-. simpl.
      eexists. split; [now rewrite <- app_assoc |].
      split; [unfold paced; simpl; now rewrite delay_listed |].
      split; [reflexivity |].
      split; [| reflexivity].
      unfold unaborted. simpl.
      now rewrite aborting_console, aborting_listed.
  - injection Hrun as <- <-. exists []. rewrite app_nil_r.
    repeat split; eauto.
Qed.

Lemma for_contracts_spec (connection : Connection PublicKey World)
    (contracts : list string) :
  forall u io flow io',
    for_contracts platform cursor0 body connection contracts u io
    = (flow, io') ->
    exists evs,
      trace io' = trace io ++ evs
      /\ contracts_summary platform aborting delay_after
           contracts u flow evs.
Proof.
  induction contracts as [| contract rest IH];
    intros u io flow io' Hrun; simpl in Hrun.
  - injection Hrun as <- <-. exists []. rewrite app_nil_r.
    split; [reflexivity |]. split; [apply paced_nil |]. split.
    + exists [], [], []. repeat split; constructor.
    + repeat split; reflexivity.
  - destruct (contract_body platform cursor0 body connection contract u io)
      as [flow1 io1] eqn:Hbody.
    apply contract_body_spec in Hbody as (evs1 & Ht1 & Hp1 & Hkey & Hflow1).
    destruct flow1 as [u1 | value | error].
    + destruct Hflow1 as (-> & Hu1 & Hf1).
      apply IH in Hrun as (evs2 & Ht2 & Hp2 & Hpage & Hflow).
      exists (evs1 ++ evs2). split; [now rewrite Ht2, Ht1, app_assoc |].
      split; [now apply paced_app |]. split.
      * destruct Hpage as (visited & rest' & keys & -> & Hkeys & Hl2 & Hend).
        destruct (PublicKey_new platform contract) as [key | error] eqn:Hk;
          [| now destruct Hkey as (_ & ? & ?)].
        exists (contract :: visited), rest', (key :: keys).
        repeat split.
        -- now constructor.
        -- now rewrite listing_requests_app, Hkey, Hl2.
        -- assumption.
      * destruct flow as [u' | value | error].
        -- destruct Hflow as (-> & Hu2 & Hf2). repeat split.
           ++ now rewrite observed_signers_app, JSSetFacts.add_all_app.
           ++ now apply unaborted_app.
           ++ now rewrite fetch_requests_app, listed_signatures_app, Hf1, Hf2.
        -- now apply aborted_with_prepend.
        -- destruct Hflow as (Hu2 & Hf2). split.
           ++ now apply unaborted_app.
           ++ now rewrite fetch_requests_app, listed_signatures_app, Hf1, Hf2.
    + injection Hrun as <- <-. exists evs1.
      split; [assumption |]. split; [assumption |]. split; [| assumption].
      destruct (PublicKey_new platform contract) as [key | error] eqn:Hk;
        [| now destruct Hkey as (_ & ? & ?)].
      exists [contract], rest, [key]. repeat split.
      * repeat constructor. assumption.
      * assumption.
      * discriminate.
    + injection Hrun as <- <-. exists evs1.
      split; [assumption |]. split; [assumption |]. split; [| assumption].
      destruct (PublicKey_new platform contract) as [key | error'] eqn:Hk.
      * exists [contract], rest, [key]. repeat split.
        -- repeat constructor. assumption.
        -- assumption.
        -- discriminate.
      * destruct Hkey as (-> & _). exists [], (contract :: rest), [].
        repeat split; try constructor. discriminate.
Qed.

End SkeletonFacts.

(** Splitting an observation of a trace along its stretches. *)
Ltac split_trace :=
  rewrite ?observed_signers_app, ?listing_requests_app,
    ?listed_signatures_app, ?fetch_requests_app, ?network_app,
    ?rpc_calls_app, ?with_delays_app.

Ltac drop_console Hlogs :=
  rewrite ?(console_observed _ _ Hlogs), ?(console_listing _ Hlogs),
    ?(console_listed _ Hlogs), ?(console_fetch _ Hlogs),
    ?(console_network _ Hlogs), ?(console_rpc _ Hlogs).

(** ** The inner loop body of src/main.ts *)

Section MainBody.

Variables PublicKey World : Type.
Variable platform : Platform PublicKey World.

Local Abbreviation obs := (observed_signers platform).

Lemma main_forEach_callback_spec (account : ParsedMessageAccount PublicKey)
    (u : JSSet.t) (io : IO PublicKey World) :
  exists logs,
    Main.forEach_callback platform account (u, io)
    = (if signer account
       then JSSet.add u (PublicKey_toString platform (pubkey account))
       else u,
       {| world := world io; trace := trace io ++ logs |})
    /\ forallb (@is_console PublicKey) logs = true.
Proof.
  unfold Main.forEach_callback. destruct (signer account).
  - eexists. split; reflexivity.
  - exists []. rewrite app_nil_r. now destruct io.
Qed.

Lemma main_forEach_spec (keys : list (ParsedMessageAccount PublicKey)) :
  forall (u : JSSet.t) (io : IO PublicKey World),
  exists logs,
    Main.forEach platform keys (u, io)
    = (JSSet.add_all u (signers_of platform keys),
       {| world := world io; trace := trace io ++ logs |})
    /\ forallb (@is_console PublicKey) logs = true.
Proof.
  unfold Main.forEach.
  induction keys as [| account keys IH]; intros u io; cbn [fold_left].
  - exists []. rewrite app_nil_r. now destruct io.
  - destruct (main_forEach_callback_spec account u io) as (l1 & -> & Hl1).
    match goal with
    | |- context [fold_left _ keys (?u1, ?io1)] =>
        destruct (IH u1 io1) as (l2 & -> & Hl2)
    end.
    exists (l1 ++ l2). simpl. split.
    + rewrite app_assoc. unfold signers_of. simpl.
      now destruct (signer account).
    + now rewrite forallb_app, Hl1, Hl2.
Qed.

(** One pass through the inner loop body, case by case on the answer
    [response] of the ledger. *)
Lemma main_body_cases (connection : Connection PublicKey World)
    (signatureInfo : ConfirmedSignatureInfo) (currentBlockTime : NumberOrNullish)
    (u : JSSet.t) (io : IO PublicKey World)
    (response : Attempt (option (ParsedTransactionWithMeta PublicKey)))
    (w : World) :
  getParsedTransaction connection (signature signatureInfo) 0 (world io)
  = (response, w) ->
  exists logs cursor,
    forallb (@is_console PublicKey) logs = true
    /\ let fetched := Fetched (signature signatureInfo) 0 response in
       let run :=
         Main.signature_body platform connection signatureInfo
           currentBlockTime u io in
       match response with
       | Err error =>
           run
           = (ReturnValue (JSSet.Array_from u),
              {| world := w;
                 trace := trace io ++ logs
                          ++ [fetched;
                              Console Error
                                [Sym SymError;
                                 Str "Error fetching transaction: ";
                                 Str error]] |})
       | Ok _ =>
           match processed_keys response with
           | None =>
               exists warning,
                 is_console warning = true
                 /\ run
                    = (Continue cursor u,
                       {| world := w;
                          trace := trace io ++ logs ++ [fetched; warning] |})
           | Some keys =>
               exists found,
                 forallb (@is_console PublicKey) found = true
                 /\ run
                    = (Continue cursor
                         (JSSet.add_all u (signers_of platform keys)),
                       {| world := elapse platform 5000 w;
                          trace := trace io ++ logs ++ [fetched] ++ found
                                   ++ [Slept 5000] |})
           end
       end.
Proof.
  intros Hfetch. unfold Main.signature_body.
  set (io0 := console Info _ io).
  set (st1 := if Main.blockTime_differs _ _ then _ else _).
  assert (Hst1 : exists logs,
             snd st1 = {| world := world io; trace := trace io ++ logs |}
             /\ forallb (@is_console PublicKey) logs = true).
  { subst st1 io0. destruct (Main.blockTime_differs _ _); simpl;
      eexists; (split; [unfold console, emit; simpl; rewrite <- ?app_assoc;
                        reflexivity | reflexivity]). }
  destruct st1 as [cursor io1]. simpl in Hst1.
  destruct Hst1 as (logs & -> & Hlogs).
  exists logs, cursor. split; [assumption |].
  unfold await_getParsedTransaction. cbn [world trace]. rewrite Hfetch.
  destruct response as [[tx |] | error]; cbn [processed_keys].
  - destruct (accountKeys (message (transaction tx))) as [keys |].
    + match goal with
      | |- context [Main.forEach _ _ (_, ?i)] =>
          destruct (main_forEach_spec keys u i)
            as (found & -> & Hfound)
      end.
      exists found. split; [assumption |].
      unfold sleep. cbn [world trace]. now rewrite <- !app_assoc.
    + eexists. split; [| unfold console, emit; cbn [world trace];
                         rewrite <- !app_assoc; reflexivity].
      reflexivity.
  - eexists. split; [| unfold console, emit; cbn [world trace];
                       rewrite <- !app_assoc; reflexivity].
    reflexivity.
  - unfold console, emit. cbn [world trace]. now rewrite <- !app_assoc.
Qed.

Lemma main_body_spec (connection : Connection PublicKey World)
    (signatureInfo : ConfirmedSignatureInfo) (currentBlockTime : NumberOrNullish)
    (u : JSSet.t) (io : IO PublicKey World)
    (flow : BodyFlow NumberOrNullish) (io' : IO PublicKey World) :
  Main.signature_body platform connection signatureInfo currentBlockTime u io
  = (flow, io') ->
  exists evs,
    trace io' = trace io ++ evs
    /\ body_summary platform (@is_rejected_fetch PublicKey)
         (@Main.delay_after PublicKey) signatureInfo u flow evs.
Proof.
  destruct (getParsedTransaction connection (signature signatureInfo) 0
              (world io)) as [response w] eqn:Hfetch.
  destruct (@main_body_cases connection signatureInfo currentBlockTime u io
              response w Hfetch) as (logs & cursor & Hlogs & Hcases).
  cbv zeta in Hcases.
  pose proof (console_filter _ Hlogs (@is_rejected_fetch _)
                (fun _ _ => eq_refl)) as Hclean.
  destruct response as [answer | error].
  - destruct (processed_keys (Ok answer)) as [keys |] eqn:Hkeys.
    + destruct Hcases as (found & Hfound & ->).
      intros H; injection H as <- <-. cbn [trace].
      exists (logs ++ [Fetched (signature signatureInfo) 0 (Ok answer)]
              ++ found ++ [Slept 5000]).
      split; [reflexivity |].
      pose proof (console_filter _ Hfound (@is_rejected_fetch _)
                    (fun _ _ => eq_refl)) as Hclean'.
      unfold body_summary, paced, unaborted.
      split_trace. rewrite !filter_app, Hclean, Hclean'.
      drop_console Hlogs. drop_console Hfound.
      cbn -[processed_keys]. rewrite Hkeys, !app_nil_r. repeat split.
    + destruct Hcases as (warning & Hwarning & ->).
      intros H; injection H as <- <-. cbn [trace].
      eexists. split; [reflexivity |].
      destruct warning; try discriminate.
      unfold body_summary, paced, unaborted.
      split_trace. rewrite !filter_app, Hclean. drop_console Hlogs.
      cbn -[processed_keys]. rewrite Hkeys. repeat split.
  - rewrite Hcases. intros H; injection H as <- <-. cbn [trace].
    eexists. split; [reflexivity |].
    unfold body_summary, paced.
    split_trace. drop_console Hlogs. repeat split.
    eexists logs, _, _. repeat split.
    + exact Hclean.
    + now rewrite (console_observed _ _ Hlogs).
    + split_trace. simpl. now rewrite app_nil_r.
Qed.
End MainBody.

(** ** The inner loop body of src/unnamed/part_000 *)

Section Part000Body.

Variables PublicKey World : Type.
Variable platform : Platform PublicKey World.

Lemma part000_forEach_callback_spec
    (account : ParsedMessageAccount PublicKey)
    (u : JSSet.t) (io : IO PublicKey World) :
  exists logs,
    Part000.forEach_callback platform account (u, io)
    = (if signer account
       then JSSet.add u (PublicKey_toString platform (pubkey account))
       else u,
       {| world := world io; trace := trace io ++ logs |})
    /\ forallb (@is_console PublicKey) logs = true.
Proof.
  unfold Part000.forEach_callback. destruct (signer account).
  - destruct (JSSet.has u _); simpl.
    + exists []. rewrite app_nil_r. now destruct io.
    + eexists. split; reflexivity.
  - exists []. rewrite app_nil_r. now destruct io.
Qed.

Lemma part000_forEach_spec (keys : list (ParsedMessageAccount PublicKey)) :
  forall (u : JSSet.t) (io : IO PublicKey World),
  exists logs,
    Part000.forEach platform keys (u, io)
    = (JSSet.add_all u (signers_of platform keys),
       {| world := world io; trace := trace io ++ logs |})
    /\ forallb (@is_console PublicKey) logs = true.
Proof.
  unfold Part000.forEach.
  induction keys as [| account keys IH]; intros u io; cbn [fold_left].
  - exists []. rewrite app_nil_r. now destruct io.
  - destruct (part000_forEach_callback_spec account u io)
      as (l1 & -> & Hl1).
    match goal with
    | |- context [fold_left _ keys (?u1, ?io1)] =>
        destruct (IH u1 io1) as (l2 & -> & Hl2)
    end.
    exists (l1 ++ l2). simpl. split.
    + rewrite app_assoc. unfold signers_of. simpl.
      now destruct (signer account).
    + now rewrite forallb_app, Hl1, Hl2.
Qed.

(** One pass through the inner loop body, case by case on the answer
    [response] of the ledger. *)
Lemma part000_body_cases (connection : Connection PublicKey World)
    (signatureInfo : ConfirmedSignatureInfo) (currentBlockSlot : Z)
    (u : JSSet.t) (io : IO PublicKey World)
    (response : Attempt (option (ParsedTransactionWithMeta PublicKey)))
    (w : World) :
  getParsedTransaction connection (signature signatureInfo) 0 (world io)
  = (response, w) ->
  exists logs cursor,
    forallb (@is_console PublicKey) logs = true
    /\ let fetched := Fetched (signature signatureInfo) 0 response in
       let run :=
         Part000.signature_body platform connection signatureInfo
           currentBlockSlot u io in
       match response with
       | Err error =>
           run
           = (Continue cursor u,
              {| world := elapse platform 10000 w;
                 trace := trace io ++ logs
                          ++ [fetched;
                              Console Error
                                [Sym SymError;
                                 Str "Error fetching transaction: ";
                                 Str error];
                              Console Log
                                [Sym SymInfo; Str "Sleeping for 10 seconds"];
                              Slept 10000;
                              Console Log
                                [Sym SymInfo; Str "Continuing..."]] |})
       | Ok _ =>
           match processed_keys response with
           | None =>
               exists warning,
                 is_console warning = true
                 /\ run
                    = (Continue cursor u,
                       {| world := w;
                          trace := trace io ++ logs ++ [fetched; warning] |})
           | Some keys =>
               exists found,
                 forallb (@is_console PublicKey) found = true
                 /\ run
                    = (Continue cursor
                         (JSSet.add_all u (signers_of platform keys)),
                       {| world := elapse platform 100 w;
                          trace := trace io ++ logs ++ [fetched] ++ found
                                   ++ [Slept 100] |})
           end
       end.
Proof.
  intros Hfetch. unfold Part000.signature_body.
  set (st1 := if negb _ then _ else _).
  assert (Hst1 : exists logs,
             snd st1 = {| world := world io; trace := trace io ++ logs |}
             /\ forallb (@is_console PublicKey) logs = true).
  { subst st1. destruct (negb _); simpl.
    - eexists. split; reflexivity.
    - exists []. rewrite app_nil_r. now destruct io. }
  destruct st1 as [cursor io1]. simpl in Hst1.
  destruct Hst1 as (logs & -> & Hlogs).
  exists logs, cursor. split; [assumption |].
  unfold await_getParsedTransaction. cbn [world trace]. rewrite Hfetch.
  destruct response as [[tx |] | error]; cbn [processed_keys].
  - destruct (accountKeys (message (transaction tx))) as [keys |].
    + match goal with
      | |- context [Part000.forEach _ _ (_, ?i)] =>
          destruct (part000_forEach_spec keys u i)
            as (found & -> & Hfound)
      end.
      exists found. split; [assumption |].
      unfold sleep. cbn [world trace]. now rewrite <- !app_assoc.
    + eexists. split; [| unfold console, emit; cbn [world trace];
                         rewrite <- !app_assoc; reflexivity].
      reflexivity.
  - eexists. split; [| unfold console, emit; cbn [world trace];
                       rewrite <- !app_assoc; reflexivity].
    reflexivity.
  - unfold console, emit, sleep. cbn [world trace].
    now rewrite <- !app_assoc.
Qed.

Lemma part000_body_spec (connection : Connection PublicKey World)
    (signatureInfo : ConfirmedSignatureInfo) (currentBlockSlot : Z)
    (u : JSSet.t) (io : IO PublicKey World)
    (flow : BodyFlow Z) (io' : IO PublicKey World) :
  Part000.signature_body platform connection signatureInfo currentBlockSlot
    u io = (flow, io') ->
  exists evs,
    trace io' = trace io ++ evs
    /\ body_summary platform (fun _ => false)
         (@Part000.delay_after PublicKey) signatureInfo u flow evs.
Proof.
  destruct (getParsedTransaction connection (signature signatureInfo) 0
              (world io)) as [response w] eqn:Hfetch.
  destruct (@part000_body_cases connection signatureInfo currentBlockSlot
              u io response w Hfetch) as (logs & cursor & Hlogs & Hcases).
  cbv zeta in Hcases.
  assert (Hclean : forall l : list (Event PublicKey),
             unaborted (fun _ => false) l).
  { intros l. unfold unaborted. induction l; simpl; auto. }
  destruct response as [answer | error].
  - destruct (processed_keys (Ok answer)) as [keys |] eqn:Hkeys.
    + destruct Hcases as (found & Hfound & ->).
      intros H; injection H as <- <-. cbn [trace].
      exists (logs ++ [Fetched (signature signatureInfo) 0 (Ok answer)]
              ++ found ++ [Slept 100]).
      split; [reflexivity |].
      unfold body_summary, paced.
      split_trace. drop_console Hlogs. drop_console Hfound.
      cbn -[processed_keys]. rewrite Hkeys, !app_nil_r.
      destruct answer; repeat split; apply Hclean.
    + destruct Hcases as (warning & Hwarning & ->).
      intros H; injection H as <- <-. cbn [trace].
      eexists. split; [reflexivity |].
      destruct warning; try discriminate.
      unfold body_summary, paced.
      split_trace. drop_console Hlogs.
      cbn -[processed_keys]. rewrite Hkeys.
      destruct answer; repeat split; apply Hclean.
  - rewrite Hcases. intros H; injection H as <- <-. cbn [trace].
    eexists. split; [reflexivity |].
    unfold body_summary, paced.
    split_trace. drop_console Hlogs. repeat split. apply Hclean.
Qed.

End Part000Body.

(** ** Whole runs of either script *)

Section Runs.

Variables PublicKey World : Type.
Variable platform : Platform PublicKey World.

Lemma events_since_app (io io' : IO PublicKey World)
    (evs : list (Event PublicKey)) :
  trace io' = trace io ++ evs -> events_since io io' = evs.
Proof.
  unfold events_since. intros ->.
  rewrite skipn_app, skipn_all, Nat.sub_diag. reflexivity.
Qed.

Lemma gives_up_listed (script : Script) address options response :
  gives_up script (@Listed PublicKey address options response) = false.
Proof. now destruct script. Qed.

Lemma gives_up_console (script : Script) level args :
  gives_up script (@Console PublicKey level args) = false.
Proof. now destruct script. Qed.

Lemma delay_table_listed (script : Script) address options response :
  delay_table script (@Listed PublicKey address options response) = [].
Proof. now destruct script. Qed.

Lemma run_contracts_spec (script : Script)
    (connection : Connection PublicKey World) (contracts : list string)
    (u : JSSet.t) (io : IO PublicKey World) (flow : Flow)
    (io' : IO PublicKey World) :
  run_contracts platform script connection contracts u io = (flow, io') ->
  exists evs,
    trace io' = trace io ++ evs
    /\ contracts_summary platform (gives_up script) (delay_table script)
         contracts u flow evs.
Proof.
  destruct script; simpl; intros Hrun.
  - eapply for_contracts_spec in Hrun; try eassumption; try reflexivity.
    intros. eapply main_body_spec. eassumption.
  - eapply for_contracts_spec in Hrun; try eassumption; try reflexivity.
    intros. eapply part000_body_spec. eassumption.
Qed.

(** The outer loop on one address is one pass through its body, and that
    pass lists exactly once when the address is a key. *)
Lemma run_contracts_single (script : Script)
    (connection : Connection PublicKey World) (contract : string)
    (key : PublicKey) (u : JSSet.t) (io : IO PublicKey World) (flow : Flow)
    (io' : IO PublicKey World) :
  PublicKey_new platform contract = Ok key ->
  run_contracts platform script connection [contract] u io = (flow, io') ->
  listing_requests (events_since io io') = [(key, pageOptions)].
Proof.
  intros Hkey Hrun.
  assert (Hbody :
            exists evs,
              trace io' = trace io ++ evs
              /\ listing_requests evs = [(key, pageOptions)]).
  { destruct script; simpl in Hrun.
    - destruct (contract_body platform (JsNumber 0%Z)
                  (Main.signature_body platform) connection contract u io)
        as [flow1 io1] eqn:Hbody.
      assert ((flow1, io1) = (flow, io')) as Heq
        by (destruct flow1; exact Hrun).
      injection Heq as -> ->.
      eapply contract_body_spec
        with (aborting := @is_rejected_fetch PublicKey)
             (delay_after := @Main.delay_after PublicKey) in Hbody;
        try reflexivity; [| intros; eapply main_body_spec; eassumption].
      destruct Hbody as (evs & Ht & _ & Hlist & _).
      rewrite Hkey in Hlist. eauto.
    - destruct (contract_body platform 0%Z
                  (Part000.signature_body platform) connection contract u io)
        as [flow1 io1] eqn:Hbody.
      assert ((flow1, io1) = (flow, io')) as Heq
        by (destruct flow1; exact Hrun).
      injection Heq as -> ->.
      eapply contract_body_spec
        with (aborting := fun _ : Event PublicKey => false)
             (delay_after := @Part000.delay_after PublicKey) in Hbody;
        try reflexivity; [| intros; eapply part000_body_spec; eassumption].
      destruct Hbody as (evs & Ht & _ & Hlist & _).
      rewrite Hkey in Hlist. eauto. }
  destruct Hbody as (evs & Ht & Hlist).
  now rewrite (@events_since_app _ _ _ Ht).
Qed.

(** A run is the outer loop from the empty set, unless the connection
    cannot be built. *)
Lemma run_script_unfold (script : Script) (url : string)
    (contracts : list string) (io : IO PublicKey World) :
  run_script platform script url contracts io
  = match Connection_new platform url "confirmed" with
    | Err error => (Thrown error, io)
    | Ok connection =>
        match run_contracts platform script connection contracts
                JSSet.empty io with
        | (Next u, io') => (Returned (JSSet.Array_from u), io')
        | (Return value, io') => (Returned value, io')
        | (Raise error, io') => (Thrown error, io')
        end
    end.
Proof. now destruct script. Qed.

Lemma run_script_spec (script : Script) (url : string)
    (contracts : list string) (io : IO PublicKey World)
    (outcome : Outcome) (io' : IO PublicKey World) :
  run_script platform script url contracts io = (outcome, io') ->
  (exists error,
      Connection_new platform url "confirmed" = Err error
      /\ outcome = Thrown error /\ io' = io)
  \/ (exists connection flow,
        Connection_new platform url "confirmed" = Ok connection
        /\ contracts_summary platform (gives_up script) (delay_table script)
             contracts JSSet.empty flow (events_since io io')
        /\ outcome = match flow with
                     | Next u => Returned (JSSet.Array_from u)
                     | Return value => Returned value
                     | Raise error => Thrown error
                     end).
Proof.
  rewrite run_script_unfold.
  destruct (Connection_new platform url "confirmed")
    as [connection | error].
  - destruct (run_contracts platform script connection contracts
                JSSet.empty io) as [flow io1] eqn:Hloop.
    intros Hrun. right. exists connection, flow.
    apply run_contracts_spec in Hloop as (evs & Ht & Hsum).
    assert (io1 = io') as -> by (destruct flow; congruence).
    rewrite (@events_since_app _ _ _ Ht).
    split; [reflexivity |]. split; [assumption |].
    destruct flow; congruence.
  - intros H; injection H as <- <-. left. eauto.
Qed.

End Runs.

(** ** Strings *)

Lemma append_assoc (a b c : string) :
  ((a ++ b) ++ c)%string = (a ++ b ++ c)%string.
Proof. induction a as [| ch a IH]; simpl; [reflexivity | now rewrite IH]. Qed.

Lemma join_from_succ (sep : string) (elements : list string) :
  forall (k : nat) (R : string),
    join_from sep (S k) R elements
    = match elements with
      | [] => R
      | _ => (R ++ sep ++ String.concat sep elements)%string
      end.
Proof.
  induction elements as [| x rest IH]; intros k R; [reflexivity |].
  cbn [join_from Nat.ltb Nat.leb]. rewrite IH.
  destruct rest as [| y rest']; simpl; now rewrite !append_assoc.
Qed.

(** [Array.prototype.join] puts the separator between the elements. *)
Lemma Array_join_concat (elements : list string) (sep : string) :
  Array_join elements sep = String.concat sep elements.
Proof.
  unfold Array_join. destruct elements as [| x rest]; [reflexivity |].
  cbn [join_from Nat.ltb Nat.leb]. rewrite join_from_succ.
  now destruct rest.
Qed.

(** ** The result of a run *)

Section Results.

Variables PublicKey World : Type.
Variable platform : Platform PublicKey World.

Lemma observed_signers_In (evs : list (Event PublicKey)) (a : string) :
  In a (observed_signers platform evs) <-> signer_of_processed platform evs a.
Proof.
  unfold observed_signers, signer_of_processed. rewrite in_flat_map. split.
  - intros (e & He & Ha). destruct e as [| sig v response | | |];
      simpl in Ha; try contradiction.
    destruct response as [[tx |] |]; simpl in Ha; try contradiction.
    destruct (accountKeys (message (transaction tx))) as [keys |] eqn:Hkeys;
      try contradiction.
    unfold signers_of in Ha. apply in_map_iff in Ha as (account & <- & Hin).
    apply filter_In in Hin as [Hin Hsigner].
    exists sig, v, tx, keys, account. auto.
  - intros (sig & v & tx & keys & account & He & Hkeys & Hin & Hs & <-).
    eexists. split; [exact He |]. simpl. rewrite Hkeys.
    unfold signers_of. apply in_map_iff. exists account.
    split; [reflexivity |]. apply filter_In. auto.
Qed.

(** What a run returns is the set built from the signers its trace
    shows, starting from the empty set. *)
Lemma run_script_returns (script : Script) (url : string)
    (contracts : list string) (io : IO PublicKey World)
    (value : list string) (io' : IO PublicKey World) :
  run_script platform script url contracts io = (Returned value, io') ->
  value
  = JSSet.add_all JSSet.empty
      (observed_signers platform (events_since io io')).
Proof.
  intros Hrun. apply run_script_spec in Hrun
    as [(error & _ & Hout & _) | (connection & flow & _ & Hsum & Hout)];
    [discriminate |].
  destruct Hsum as (_ & _ & Hflow).
  destruct flow as [u | v | error]; try discriminate;
    injection Hout as ->.
  - now destruct Hflow as (-> & _).
  - destruct Hflow as (pre & a & c & _ & _ & _ & _ & -> & ->).
    reflexivity.
Qed.

End Results.

(** ** Writing the result *)

Lemma csvContent_concat (strings : list string) :
  csvContent strings = (String.concat ";" strings ++ LF)%string.
Proof. unfold csvContent. now rewrite Array_join_concat. Qed.

Lemma createCSV_events
    (PublicKey World : Type) (platform : Platform PublicKey World)
    (strings : list string) (filePath : string) (io : IO PublicKey World) :
  exists response w,
    Deno_writeTextFile platform filePath (csvContent strings) (world io)
    = (response, w)
    /\ events_since io (snd (createCSV platform strings filePath io))
       = Written filePath (csvContent strings) response
         :: match response with
            | Ok _ =>
                [Console Log
                   [Str ("CSV file created at: " ++ filePath)%string]]
            | Err _ => []
            end.
Proof.
  unfold createCSV, await_writeTextFile.
  destruct (Deno_writeTextFile platform filePath (csvContent strings)
              (world io)) as [response w].
  exists response, w. split; [reflexivity |].
  destruct response; simpl; apply events_since_app; simpl;
    now rewrite <- ?app_assoc.
Qed.

(** ** The first mark in a list *)

Lemma first_mark_unique (A : Type) (p : A -> bool) (l1 : list A) :
  forall (x : A) (r1 l2 : list A) (y : A) (r2 : list A),
    l1 ++ x :: r1 = l2 ++ y :: r2 ->
    p x = true -> filter p l2 = [] -> filter p r2 = [] ->
    l1 = l2 /\ x = y /\ r1 = r2.
Proof.
  induction l1 as [| a l1 IH]; intros x r1 l2 y r2 Heq Hx Hl2 Hr2.
  - destruct l2 as [| z l2]; simpl in Heq.
    + injection Heq as <- <-. auto.
    + injection Heq as <- _. simpl in Hl2. rewrite Hx in Hl2. discriminate.
  - destruct l2 as [| z l2]; simpl in Heq.
    + injection Heq as _ <-. rewrite filter_app in Hr2. simpl in Hr2.
      rewrite Hx in Hr2. now apply app_eq_nil in Hr2 as [_ ?].
    + injection Heq as <- Heq. simpl in Hl2.
      destruct (p a); [discriminate |].
      destruct (IH x r1 l2 y r2 Heq Hx Hl2 Hr2) as (-> & -> & ->). auto.
Qed.

(** * The claims *)

(** C1.  Whenever a run of either script returns, the returned set has no
    duplicates and holds exactly the public keys of the entries flagged as
    signers in the transactions that were processed, that is fetched
    successfully, present and with an account list; a fetch that failed,
    an absent transaction and a transaction without account list
    contribute nothing.  The ledger is arbitrary and may answer
    differently over time. *)
Theorem C1_final_set_exactly_processed_signers
    (PublicKey World : Type) (platform : Platform PublicKey World)
    (script : Script) (url : string) (contracts : list string)
    (io : IO PublicKey World) (value : list string)
    (io' : IO PublicKey World) :
  run_script platform script url contracts io = (Returned value, io') ->
  NoDup value
  /\ forall address : string,
       In address value
       <-> signer_of_processed platform (events_since io io') address.
Proof.
  intros Hrun. apply run_script_returns in Hrun as ->. split.
  - apply JSSetFacts.add_all_NoDup. constructor.
  - intros address. rewrite JSSetFacts.add_all_In, <- observed_signers_In.
    simpl. tauto.
Qed.

Lemma C1_witness :
  NoDup ["Bob"; "Alice"; "Carol"]
  /\ forall address : string,
       In address ["Bob"; "Alice"; "Carol"]
       <-> signer_of_processed Fixture.platform
             (events_since Fixture.start
                (snd (run_script Fixture.platform Part000Ts Fixture.url
                        ["Program2"; "Program3"] Fixture.start)))
             address.
Proof.
  apply (@C1_final_set_exactly_processed_signers _ _ Fixture.platform
           Part000Ts Fixture.url ["Program2"; "Program3"] Fixture.start).
  vm_compute. reflexivity.
Defined.

(** C5.  The text written by createCSV is the entries joined by [;] and
    followed by one line feed: nothing in front of the first entry, every
    entry verbatim.  For [Addr1], [Addr2] it is [Addr1;Addr2] and a line
    feed; an entry that contains the delimiter is written as it is. *)
Theorem C5_csv_is_joined_line
    (PublicKey World : Type) (platform : Platform PublicKey World)
    (strings : list string) (filePath : string) (io : IO PublicKey World) :
  csvContent strings = (String.concat ";" strings ++ LF)%string
  /\ csvContent ["Addr1"; "Addr2"] = ("Addr1;Addr2" ++ LF)%string
  /\ csvContent ["a;b"; "c"] = ("a;b;c" ++ LF)%string
  /\ exists response w,
       Deno_writeTextFile platform filePath
         (String.concat ";" strings ++ LF)%string (world io) = (response, w)
       /\ events_since io (snd (createCSV platform strings filePath io))
          = Written filePath (String.concat ";" strings ++ LF)%string response
            :: match response with
               | Ok _ =>
                   [Console Log
                      [Str ("CSV file created at: " ++ filePath)%string]]
               | Err _ => []
               end.
Proof.
  split; [apply csvContent_concat |]. split; [reflexivity |].
  split; [reflexivity |].
  rewrite <- csvContent_concat. apply createCSV_events.
Qed.

(** C9.  The list a run returns is the signer keys in the order of their
    first discovery: the keys seen in the processed transactions, each
    kept at its first occurrence only.  Adding a key that is already in
    the set changes nothing, and the written line keeps that order. *)
Theorem C9_result_in_first_discovery_order
    (PublicKey World : Type) (platform : Platform PublicKey World)
    (script : Script) (url : string) (contracts : list string)
    (io : IO PublicKey World) (value : list string)
    (io' : IO PublicKey World) :
  run_script platform script url contracts io = (Returned value, io') ->
  value
  = first_occurrences (observed_signers platform (events_since io io'))
  /\ csvContent value
     = (String.concat ";"
          (first_occurrences
             (observed_signers platform (events_since io io'))) ++ LF)%string
  /\ forall (s : JSSet.t) (v : string), In v s -> JSSet.add s v = s.
Proof.
  intros Hrun. apply run_script_returns in Hrun as ->.
  rewrite JSSetFacts.add_all_empty. split; [reflexivity |]. split.
  - unfold csvContent. now rewrite Array_join_concat.
  - intros s v Hin. now apply JSSetFacts.add_present, JSSetFacts.has_In.
Qed.

Lemma C9_witness :
  ["Alice"; "Bob"; "Carol"]
  = first_occurrences
      (observed_signers Fixture.platform
         (events_since Fixture.start
            (snd (run_script Fixture.platform MainTs Fixture.url
                    ["Program1"; "Program3"] Fixture.start))))
  /\ csvContent ["Alice"; "Bob"; "Carol"]
     = (String.concat ";"
          (first_occurrences
             (observed_signers Fixture.platform
                (events_since Fixture.start
                   (snd (run_script Fixture.platform MainTs Fixture.url
                           ["Program1"; "Program3"] Fixture.start)))))
        ++ LF)%string
  /\ forall (s : JSSet.t) (v : string), In v s -> JSSet.add s v = s.
Proof.
  apply (@C9_result_in_first_discovery_order _ _ Fixture.platform
           MainTs Fixture.url ["Program1"; "Program3"] Fixture.start).
  vm_compute. reflexivity.
Defined.

(** C10, as stated, fails when the endpoint is one the Connection
    constructor refuses: the constructor runs before the loop, so the run
    throws instead of returning the empty list. *)
Lemma C10_counterexample :
  run_script Fixture.platform MainTs "ftp://nowhere" [] Fixture.start
  = (Thrown "Endpoint URL must start with http: or https:", Fixture.start)
  /\ fst (run_script Fixture.platform MainTs "ftp://nowhere" []
            Fixture.start)
     <> Returned [].
Proof. split; [reflexivity | discriminate]. Qed.

(** C10, amended.  On the empty list of addresses a run makes no listing
    call and no fetch: it leaves the world and the trace as they were.
    It returns the empty list when the Connection constructor accepts
    the endpoint, and throws the constructor's error otherwise.  Writing
    the empty result writes exactly one line feed. *)
Theorem C10_no_addresses
    (PublicKey World : Type) (platform : Platform PublicKey World)
    (script : Script) (url : string) (filePath : string)
    (io : IO PublicKey World) :
  run_script platform script url [] io
  = (match Connection_new platform url "confirmed" with
     | Ok _ => Returned []
     | Err error => Thrown error
     end, io)
  /\ rpc_calls (events_since io (snd (run_script platform script url [] io)))
     = []
  /\ csvContent [] = LF
  /\ exists response,
       events_since io (snd (createCSV platform [] filePath io))
       = Written filePath LF response
         :: match response with
            | Ok _ =>
                [Console Log
                   [Str ("CSV file created at: " ++ filePath)%string]]
            | Err _ => []
            end.
Proof.
  assert (Hrun : run_script platform script url [] io
                 = (match Connection_new platform url "confirmed" with
                    | Ok _ => Returned []
                    | Err error => Thrown error
                    end, io)).
  { rewrite run_script_unfold.
    destruct (Connection_new platform url "confirmed");
      now destruct script. }
  split; [exact Hrun |]. rewrite Hrun. split.
  - unfold events_since. simpl. now rewrite skipn_all.
  - split; [reflexivity |].
    destruct (createCSV_events platform [] filePath io)
      as (response & w & _ & Hev).
    exists response. exact Hev.
Qed.

(** C2.  In src/main.ts, when the fetch for a signature raises, the run
    ends there: what follows the failed fetch in the trace is console
    output only, and the value returned is the set built from the
    transactions processed before the failed fetch, with nothing of the
    failed signature or of anything later. *)
Theorem C2_abort_returns_what_came_before
    (PublicKey World : Type) (platform : Platform PublicKey World)
    (url : string) (contracts : list string) (io : IO PublicKey World)
    (outcome : Outcome) (io' : IO PublicKey World)
    (pre : list (Event PublicKey)) (sig : string) (version : Z)
    (error : JsError) (post : list (Event PublicKey)) :
  Main.getInteractingAddresses platform url contracts io = (outcome, io') ->
  events_since io io' = pre ++ Fetched sig version (Err error) :: post ->
  outcome
  = Returned
      (JSSet.Array_from
         (JSSet.add_all JSSet.empty (observed_signers platform pre)))
  /\ network post = []
  /\ fetch_requests post = [].
Proof.
  intros Hrun Hevs.
  change (run_script platform MainTs url contracts io = (outcome, io'))
    in Hrun.
  assert (Hmark : forall l r,
             filter (@is_rejected_fetch PublicKey)
               (l ++ Fetched sig version (Err error) :: r) <> []).
  { intros l r H. rewrite filter_app in H. simpl in H.
    now apply app_eq_nil in H as [_ ?]. }
  apply run_script_spec in Hrun
    as [(e & _ & _ & ->) | (connection & flow & _ & Hsum & ->)].
  - unfold events_since in Hevs. rewrite skipn_all in Hevs.
    now destruct pre.
  - rewrite Hevs in Hsum. destruct Hsum as (_ & _ & Hflow).
    destruct flow as [u | value | e].
    + destruct Hflow as (_ & Hclean & _). now apply Hmark in Hclean.
    + destruct Hflow as (pre' & a & c & Heq & Ha & Hc & Hpre' & -> & _).
      simpl in Ha.
      destruct (@first_mark_unique _ (@is_rejected_fetch PublicKey)
                  pre _ post pre' a [c] Heq eq_refl Hpre')
        as (-> & _ & ->).
      { destruct c; try discriminate. reflexivity. }
      destruct c; try discriminate. auto.
    + destruct Hflow as (Hclean & _). now apply Hmark in Hclean.
Qed.

Lemma C2_witness :
  (Main.getInteractingAddresses Fixture.platform Fixture.url
     ["Program1"; "Program2"; "Program3"] Fixture.start
   = (fst Fixture.abort_run, snd Fixture.abort_run)
   /\ events_since Fixture.start (snd Fixture.abort_run)
      = firstn 19 (trace (snd Fixture.abort_run))
        ++ Fetched "sigFail" 0 (Err "429 Too Many Requests")
        :: skipn 20 (trace (snd Fixture.abort_run)))
  /\ fst Fixture.abort_run
     = Returned
         (JSSet.Array_from
            (JSSet.add_all JSSet.empty
               (observed_signers Fixture.platform
                  (firstn 19 (trace (snd Fixture.abort_run))))))
  /\ network (skipn 20 (trace (snd Fixture.abort_run))) = []
  /\ fetch_requests (skipn 20 (trace (snd Fixture.abort_run))) = [].
Proof.
  assert (H1 : Main.getInteractingAddresses Fixture.platform Fixture.url
                 ["Program1"; "Program2"; "Program3"] Fixture.start
               = (fst Fixture.abort_run, snd Fixture.abort_run))
    by (vm_compute; reflexivity).
  assert (H2 : events_since Fixture.start (snd Fixture.abort_run)
               = firstn 19 (trace (snd Fixture.abort_run))
                 ++ Fetched "sigFail" 0 (Err "429 Too Many Requests")
                 :: skipn 20 (trace (snd Fixture.abort_run)))
    by (vm_compute; reflexivity).
  split; [split; assumption |].
  exact (@C2_abort_returns_what_came_before _ _ Fixture.platform Fixture.url
           ["Program1"; "Program2"; "Program3"] Fixture.start _ _ _ _ _ _ _
           H1 H2).
Defined.

(** C6, as stated, fails when a run ends before it has reached every
    address: src/main.ts returns on the failed first fetch of the first
    program, and the second program is never listed. *)
Lemma C6_counterexample :
  fst (run_script Fixture.platform MainTs Fixture.url
         ["Program2"; "Program1"] Fixture.start)
  = Returned []
  /\ listing_requests
       (events_since Fixture.start
          (snd (run_script Fixture.platform MainTs Fixture.url
                  ["Program2"; "Program1"] Fixture.start)))
     = [("Program2",
         {| before := None; until := None; limit := Some 1000%Z |})]
  /\ listing_requests
       (events_since Fixture.start
          (snd (run_script Fixture.platform MainTs Fixture.url
                  ["Program2"; "Program1"] Fixture.start)))
     <> map (fun address =>
               (address,
                {| before := None; until := None; limit := Some 1000%Z |}))
          ["Program2"; "Program1"].
Proof. vm_compute. repeat split. discriminate. Qed.

(** C6, amended.  The listing requests of a run are one per address, in
    the order of the input, for the addresses the run reached ([visited],
    a prefix of the input); each asks for one page with limit 1000 and
    carries no pagination cursor, so no page after the first is ever
    requested.  The run reaches every address when it returns without
    having given up on a failed fetch (which only src/main.ts does).  One
    pass of the outer loop over an address that is a key lists exactly
    once, however the pass ends. *)
Theorem C6_one_page_per_address
    (PublicKey World : Type) (platform : Platform PublicKey World)
    (script : Script) (url : string) (contracts : list string)
    (io : IO PublicKey World) (outcome : Outcome)
    (io' : IO PublicKey World) :
  run_script platform script url contracts io = (outcome, io') ->
  exists visited rest keys,
    contracts = visited ++ rest
    /\ Forall2 (fun contract key => PublicKey_new platform contract = Ok key)
         visited keys
    /\ listing_requests (events_since io io')
       = map (fun key =>
                (key,
                 {| before := None; until := None; limit := Some 1000%Z |}))
           keys
    /\ (forall value,
          outcome = Returned value ->
          (script = MainTs ->
           filter (@is_rejected_fetch PublicKey) (events_since io io') = []) ->
          rest = [])
    /\ (forall (connection : Connection PublicKey World) (contract : string)
               (key : PublicKey) (u : JSSet.t) (io0 : IO PublicKey World)
               (flow : Flow) (io1 : IO PublicKey World),
          PublicKey_new platform contract = Ok key ->
          run_contracts platform script connection [contract] u io0
          = (flow, io1) ->
          listing_requests (events_since io0 io1)
          = [(key,
              {| before := None; until := None; limit := Some 1000%Z |})]).
Proof.
  intros Hrun.
  assert (Hsingle := @run_contracts_single _ _ platform script).
  apply run_script_spec in Hrun
    as [(e & _ & -> & ->) | (connection & flow & _ & Hsum & ->)].
  - exists [], contracts, []. repeat split; try constructor; try exact Hsingle.
    + unfold events_since. now rewrite skipn_all.
    + discriminate.
  - destruct Hsum as (_ & (visited & rest & keys & H1 & H2 & H3 & H4) & Hflow).
    exists visited, rest, keys.
    repeat split; try assumption; try exact Hsingle.
    intros value Hout Hclean.
    destruct flow as [u | v | e]; [eapply H4; reflexivity | | discriminate].
    exfalso. destruct Hflow as (pre & a & c & Heq & Ha & _).
    destruct script; [| discriminate].
    specialize (Hclean eq_refl). rewrite Heq, filter_app in Hclean.
    simpl in Hclean, Ha. rewrite Ha in Hclean.
    now apply app_eq_nil in Hclean as [_ ?].
Qed.

Lemma C6_witness :
  run_script Fixture.platform Part000Ts Fixture.url ["Program2"; "Program3"]
    Fixture.start
  = (fst Fixture.skip_run, snd Fixture.skip_run)
  /\ exists visited rest keys,
       ["Program2"; "Program3"] = visited ++ rest
       /\ Forall2
            (fun contract key =>
               PublicKey_new Fixture.platform contract = Ok key)
            visited keys
       /\ listing_requests (events_since Fixture.start (snd Fixture.skip_run))
          = map (fun key =>
                   (key,
                    {| before := None; until := None;
                       limit := Some 1000%Z |}))
              keys
       /\ rest = [].
Proof.
  assert (H : run_script Fixture.platform Part000Ts Fixture.url
                ["Program2"; "Program3"] Fixture.start
              = (fst Fixture.skip_run, snd Fixture.skip_run))
    by (vm_compute; reflexivity).
  split; [exact H |].
  destruct (@C6_one_page_per_address _ _ Fixture.platform Part000Ts
              Fixture.url ["Program2"; "Program3"] Fixture.start _ _ H)
    as (visited & rest & keys & H1 & H2 & H3 & H4 & _).
  exists visited, rest, keys. repeat split; try assumption.
  apply (H4 ["Bob"; "Alice"; "Carol"]); [reflexivity | discriminate].
Defined.

(** C7, as the specification states it, fails: with an absent transaction
    neither script waits at all, neither after the listing call nor after
    the skipped signature. *)
Lemma C7_counterexample :
  (network (events_since Fixture.start (snd (Fixture.absent_run MainTs)))
   = [Listed "Program4"
        {| before := None; until := None; limit := Some 1000%Z |}
        (Ok [Fixture.info "sigGone" 8]);
      Fetched "sigGone" 0 (Ok None)]
   /\ every_call_delayed
        (network (events_since Fixture.start (snd (Fixture.absent_run MainTs))))
      = false)
  /\ (network (events_since Fixture.start (snd (Fixture.absent_run Part000Ts)))
      = [Listed "Program4"
           {| before := None; until := None; limit := Some 1000%Z |}
           (Ok [Fixture.info "sigGone" 8]);
         Fetched "sigGone" 0 (Ok None)]
      /\ every_call_delayed
           (network
              (events_since Fixture.start (snd (Fixture.absent_run Part000Ts))))
         = false).
Proof. vm_compute. repeat split. Qed.

(** C7, amended.  The waits of a run are exactly those of the script's
    table, each directly behind the call it belongs to: after a fetch
    that is processed (5000 ms in src/main.ts, 100 ms in
    src/unnamed/part_000) and, in part_000 only, 10000 ms after a failed
    fetch.  No wait follows a listing call or a fetch whose transaction or
    account list is absent. *)
Theorem C7_waits_follow_processed_fetches
    (PublicKey World : Type) (platform : Platform PublicKey World)
    (script : Script) (url : string) (contracts : list string)
    (io : IO PublicKey World) (outcome : Outcome)
    (io' : IO PublicKey World) :
  run_script platform script url contracts io = (outcome, io') ->
  network (events_since io io')
  = with_delays (delay_table script) (rpc_calls (events_since io io'))
  /\ (forall address options response,
        delay_table script (@Listed PublicKey address options response) = [])
  /\ (forall sig version answer,
        delay_table script (@Fetched PublicKey sig version (Ok answer))
        = match processed_keys (Ok answer), script with
          | None, _ => []
          | Some _, MainTs => [5000%Z]
          | Some _, Part000Ts => [100%Z]
          end)
  /\ (forall sig version error,
        delay_table script (@Fetched PublicKey sig version (Err error))
        = match script with
          | MainTs => []
          | Part000Ts => [10000%Z]
          end).
Proof.
  intros Hrun. split; [| split; [| split]].
  - apply run_script_spec in Hrun
      as [(e & _ & _ & ->) | (connection & flow & _ & Hsum & _)].
    + unfold events_since. now rewrite skipn_all.
    + now destruct Hsum as (Hpaced & _).
  - intros. now destruct script.
  - intros sig version answer.
    destruct script; simpl; now destruct (processed_keys (Ok answer)).
  - intros. now destruct script.
Qed.

Lemma C7_witness :
  run_script Fixture.platform Part000Ts Fixture.url ["Program2"; "Program3"]
    Fixture.start
  = (fst Fixture.skip_run, snd Fixture.skip_run)
  /\ network (events_since Fixture.start (snd Fixture.skip_run))
     = with_delays (delay_table Part000Ts)
         (rpc_calls (events_since Fixture.start (snd Fixture.skip_run))).
Proof.
  assert (H : run_script Fixture.platform Part000Ts Fixture.url
                ["Program2"; "Program3"] Fixture.start
              = (fst Fixture.skip_run, snd Fixture.skip_run))
    by (vm_compute; reflexivity).
  split; [exact H |].
  exact (proj1 (@C7_waits_follow_processed_fetches _ _ Fixture.platform
                  Part000Ts Fixture.url ["Program2"; "Program3"]
                  Fixture.start _ _ H)).
Defined.

(** C8.  The set only grows.  [add] of a value that is present changes
    nothing; [add] of a new value appends it and the size grows by one.
    One call of the forEach callback, in either script, sets the set to
    itself or to itself with the signer's key added, whatever is logged,
    and the logging leaves console lines only: the world is untouched.
    Over a whole loop the set at the start is a prefix of the set at the
    end, also when the loop ends by a [return]. *)
Theorem C8_set_only_grows
    (PublicKey World : Type) (platform : Platform PublicKey World)
    (script : Script) :
  (forall (s : JSSet.t) (v : string),
      JSSet.has s v = true -> JSSet.add s v = s)
  /\ (forall (s : JSSet.t) (v : string),
        JSSet.has s v = false ->
        JSSet.add s v = s ++ [v]
        /\ JSSet.size (JSSet.add s v) = (JSSet.size s + 1)%Z)
  /\ (forall (account : ParsedMessageAccount PublicKey) (u : JSSet.t)
             (io : IO PublicKey World),
        exists logs,
          callback_of platform script account (u, io)
          = (if signer account
             then JSSet.add u (PublicKey_toString platform (pubkey account))
             else u,
             {| world := world io; trace := trace io ++ logs |})
          /\ forallb (@is_console PublicKey) logs = true)
  /\ (forall (connection : Connection PublicKey World)
             (contracts : list string) (u : JSSet.t)
             (io : IO PublicKey World) (flow : Flow)
             (io' : IO PublicKey World),
        run_contracts platform script connection contracts u io
        = (flow, io') ->
        match flow with
        | Next u' | Return u' => exists added, u' = u ++ added
        | Raise _ => True
        end).
Proof.
  split; [apply JSSetFacts.add_present |]. split; [| split].
  - intros s v Hfresh. rewrite (JSSetFacts.add_fresh _ _ Hfresh).
    split; [reflexivity |]. unfold JSSet.size.
    rewrite length_app. simpl. lia.
  - intros account u io. destruct script.
    + apply main_forEach_callback_spec.
    + apply part000_forEach_callback_spec.
  - intros connection contracts u io flow io' Hrun.
    apply run_contracts_spec in Hrun as (evs & _ & _ & _ & Hflow).
    destruct flow as [u' | value | error]; [| | exact I].
    + destruct Hflow as (-> & _). apply JSSetFacts.add_all_extends.
    + destruct Hflow as (pre & _ & _ & _ & _ & _ & _ & -> & _).
      apply JSSetFacts.add_all_extends.
Qed.

(** C4.  In either script, a signature whose fetch answers with no
    transaction, or with a transaction that has no account list, is
    skipped: the loop goes on with the next signatures from the same set,
    the only thing the iteration did besides console output is the fetch
    itself, and the world is as the fetch left it, so no time was spent
    waiting. *)
Theorem C4_absent_transaction_is_skipped
    (PublicKey World : Type) (platform : Platform PublicKey World)
    (connection : Connection PublicKey World)
    (signatureInfo : ConfirmedSignatureInfo)
    (rest : list ConfirmedSignatureInfo) (u : JSSet.t)
    (io : IO PublicKey World)
    (answer : option (ParsedTransactionWithMeta PublicKey)) (w : World) :
  getParsedTransaction connection (signature signatureInfo) 0 (world io)
  = (Ok answer, w) ->
  processed_keys (Ok answer) = None ->
  (forall currentBlockTime : NumberOrNullish,
      exists cursor io1,
        for_signatures (Main.signature_body platform) connection
          (signatureInfo :: rest) currentBlockTime u io
        = for_signatures (Main.signature_body platform) connection
            rest cursor u io1
        /\ world io1 = w
        /\ network (events_since io io1)
           = [Fetched (signature signatureInfo) 0 (Ok answer)])
  /\ (forall currentBlockSlot : Z,
        exists cursor io1,
          for_signatures (Part000.signature_body platform) connection
            (signatureInfo :: rest) currentBlockSlot u io
          = for_signatures (Part000.signature_body platform) connection
              rest cursor u io1
          /\ world io1 = w
          /\ network (events_since io io1)
             = [Fetched (signature signatureInfo) 0 (Ok answer)]).
Proof.
  intros Hfetch Hkeys. split.
  - intros currentBlockTime.
    destruct (main_body_cases platform connection signatureInfo
                currentBlockTime u io Hfetch)
      as (logs & cursor & Hlogs & Hcases).
    cbv zeta in Hcases. rewrite Hkeys in Hcases.
    destruct Hcases as (warning & Hwarning & Hrun).
    eexists cursor, _. cbn [for_signatures]. rewrite Hrun.
    split; [reflexivity |]. split; [reflexivity |].
    erewrite events_since_app by reflexivity.
    rewrite network_app, (console_network _ Hlogs).
    now destruct warning.
  - intros currentBlockSlot.
    destruct (part000_body_cases platform connection signatureInfo
                currentBlockSlot u io Hfetch)
      as (logs & cursor & Hlogs & Hcases).
    cbv zeta in Hcases. rewrite Hkeys in Hcases.
    destruct Hcases as (warning & Hwarning & Hrun).
    eexists cursor, _. cbn [for_signatures]. rewrite Hrun.
    split; [reflexivity |]. split; [reflexivity |].
    erewrite events_since_app by reflexivity.
    rewrite network_app, (console_network _ Hlogs).
    now destruct warning.
Qed.


Lemma C4_witness :
  (getParsedTransaction Fixture.connection
     (signature (Fixture.info "sigGone" 7)) 0 (world Fixture.start)
   = (Ok None, 0%Z)
   /\ @processed_keys string (Ok None) = None)
  /\ exists cursor io1,
       for_signatures (Main.signature_body Fixture.platform)
         Fixture.connection
         [Fixture.info "sigGone" 7; Fixture.info "sigA" 6] (JsNumber 0%Z)
         JSSet.empty Fixture.start
       = for_signatures (Main.signature_body Fixture.platform)
           Fixture.connection [Fixture.info "sigA" 6] cursor JSSet.empty io1
       /\ world io1 = 0%Z
       /\ network (events_since Fixture.start io1)
          = [Fetched (signature (Fixture.info "sigGone" 7)) 0 (Ok None)].
Proof.
  split; [split; reflexivity |].
  exact (proj1
           (@C4_absent_transaction_is_skipped _ _ Fixture.platform
              Fixture.connection (Fixture.info "sigGone" 7)
              [Fixture.info "sigA" 6] JSSet.empty Fixture.start None 0%Z
              eq_refl eq_refl)
           (JsNumber 0%Z)).
Defined.


(** * More properties of the code *)

(** ** A proof rule for the two loops

    [Outer] holds of the events so far and the set when the outer loop
    is at its head, [Inner] when the inner loop is, with the signatures
    still to come and the progress variable; [OnReturn] and [OnRaise]
    hold when the function is left. *)

Section LoopRule.

Variables PublicKey World : Type.
Variable platform : Platform PublicKey World.
Variable Cursor : Type.
Variable cursor0 : Cursor.
Variable body :
  Connection PublicKey World -> ConfirmedSignatureInfo -> Cursor ->
  JSSet.t -> IO PublicKey World -> BodyFlow Cursor * IO PublicKey World.
Variable contracts : list string.

Variable Outer : list (Event PublicKey) -> JSSet.t -> Prop.
Variable Inner :
  list ConfirmedSignatureInfo -> Cursor -> list (Event PublicKey) ->
  JSSet.t -> Prop.
Variable OnReturn : list (Event PublicKey) -> list string -> Prop.
Variable OnRaise : list (Event PublicKey) -> JsError -> Prop.

Local Abbreviation listing_line key :=
  (Console Info
     [Sym SymInfo;
      Str ("Fetching signatures for contract:"
           ++ PublicKey_toString platform key)%string]).

Hypothesis enter :
  forall evs u contract key signatures,
    In contract contracts ->
    PublicKey_new platform contract = Ok key ->
    Outer evs u ->
    Inner signatures cursor0
      (evs ++ [listing_line key; Listed key pageOptions (Ok signatures)]) u.
Hypothesis leave :
  forall cursor evs u, Inner [] cursor evs u -> Outer evs u.
Hypothesis bad_key :
  forall evs u contract error,
    In contract contracts ->
    PublicKey_new platform contract = Err error ->
    Outer evs u -> OnRaise evs error.
Hypothesis bad_listing :
  forall evs u contract key error,
    In contract contracts ->
    PublicKey_new platform contract = Ok key ->
    Outer evs u ->
    OnRaise (evs ++ [listing_line key; Listed key pageOptions (Err error)])
      error.
Hypothesis step :
  forall connection signatureInfo rest cursor u io flow io' evs,
    Inner (signatureInfo :: rest) cursor evs u ->
    body connection signatureInfo cursor u io = (flow, io') ->
    exists new,
      trace io' = trace io ++ new
      /\ match flow with
         | Continue cursor' u' => Inner rest cursor' (evs ++ new) u'
         | ReturnValue value => OnReturn (evs ++ new) value
         end.

Lemma for_signatures_rule (connection : Connection PublicKey World)
    (signatures : list ConfirmedSignatureInfo) :
  forall cursor u io evs flow io',
    Inner signatures cursor evs u ->
    for_signatures body connection signatures cursor u io = (flow, io') ->
    exists new,
      trace io' = trace io ++ new
      /\ match flow with
         | Next u' => Outer (evs ++ new) u'
         | Return value => OnReturn (evs ++ new) value
         | Raise _ => False
         end.
Proof.
  induction signatures as [| signatureInfo rest IH];
    intros cursor u io evs flow io' Hinv Hrun; simpl in Hrun.
  - injection Hrun as <- <-. exists []. rewrite !app_nil_r.
    split; [reflexivity |]. now apply leave with cursor.
  - destruct (body connection signatureInfo cursor u io)
      as [[cursor1 u1 | value] io1] eqn:Hbody;
      destruct (step Hinv Hbody) as (new1 & Ht1 & Hnext).
    + destruct (IH _ _ _ _ _ _ Hnext Hrun) as (new2 & Ht2 & Hflow).
      exists (new1 ++ new2). rewrite Ht2, Ht1, !app_assoc. auto.
    + injection Hrun as <- <-. eauto.
Qed.

Lemma for_contracts_rule (connection : Connection PublicKey World)
    (todo : list string) :
  forall u io evs flow io',
    incl todo contracts ->
    Outer evs u ->
    for_contracts platform cursor0 body connection todo u io = (flow, io') ->
    exists new,
      trace io' = trace io ++ new
      /\ match flow with
         | Next u' => Outer (evs ++ new) u'
         | Return value => OnReturn (evs ++ new) value
         | Raise error => OnRaise (evs ++ new) error
         end.
Proof.
  induction todo as [| contract rest IH];
    intros u io evs flow io' Hincl Hinv Hrun; simpl in Hrun.
  - injection Hrun as <- <-. exists []. now rewrite !app_nil_r.
  - assert (Hin : In contract contracts) by (apply Hincl; now left).
    assert (Hrest : incl rest contracts)
      by (intros x Hx; apply Hincl; now right).
    unfold contract_body in Hrun.
    destruct (PublicKey_new platform contract) as [key | error] eqn:Hkey.
    + unfold await_getSignaturesForAddress in Hrun. cbn [world trace] in Hrun.
      destruct (getSignaturesForAddress connection key pageOptions _)
        as [[signatures | error] w] eqn:Hlist.
      * match type of Hrun with
        | context [for_signatures _ _ _ _ _ ?i] =>
            destruct (for_signatures body connection signatures cursor0 u i)
              as [flow1 io1] eqn:Hinner
        end.
        apply for_signatures_rule
          with (evs := evs ++ [listing_line key;
                               Listed key pageOptions (Ok signatures)])
          in Hinner; [| now apply enter with contract].
        destruct Hinner as (new1 & Ht1 & Hflow1). cbn [trace console emit] in Ht1.
        destruct flow1 as [u1 | value | error].
        -- destruct (IH _ _ _ _ _ Hrest Hflow1 Hrun) as (new2 & Ht2 & Hflow).
           exists ([listing_line key; Listed key pageOptions (Ok signatures)]
                   ++ new1 ++ new2).
           split; [rewrite Ht2, Ht1, <- !app_assoc; reflexivity |].
           now rewrite <- !app_assoc in *.
        -- injection Hrun as <- <-.
           exists ([listing_line key; Listed key pageOptions (Ok signatures)]
                   ++ new1).
           split; [rewrite Ht1, <- !app_assoc; reflexivity |].
           now rewrite <- !app_assoc in *.
        -- destruct Hflow1.
      * injection Hrun as <- <-.
        exists [listing_line key; Listed key pageOptions (Err error)].
        split; [cbn [trace console emit]; now rewrite <- app_assoc |].
        now apply bad_listing with u contract.
    + injection Hrun as <- <-. exists []. rewrite !app_nil_r.
      split; [reflexivity |]. now apply bad_key with u contract.
Qed.

Lemma getInteractingAddresses_rule (url : string) (io : IO PublicKey World)
    (outcome : Outcome) (io' : IO PublicKey World) :
  Outer [] JSSet.empty ->
  getInteractingAddresses platform cursor0 body url contracts io
  = (outcome, io') ->
  match Connection_new platform url "confirmed" with
  | Err error => outcome = Thrown error /\ io' = io
  | Ok _ =>
      match outcome with
      | Returned value =>
          Outer (events_since io io') value
          \/ OnReturn (events_since io io') value
      | Thrown error => OnRaise (events_since io io') error
      end
  end.
Proof.
  intros Hstart. unfold getInteractingAddresses.
  destruct (Connection_new platform url "confirmed") as [connection | error].
  - destruct (for_contracts platform cursor0 body connection contracts
                JSSet.empty io) as [flow io1] eqn:Hloop.
    apply for_contracts_rule with (evs := []) in Hloop;
      [| apply incl_refl | assumption].
    destruct Hloop as (new & Ht & Hflow). simpl in Hflow.
    destruct flow as [u | value | error]; intros H; injection H as <- <-;
      rewrite (@events_since_app _ _ _ _ _ Ht); auto.
  - intros H; injection H as <- <-. auto.
Qed.

End LoopRule.

(** ** One pass through the inner loop body, as an equation *)

Section Passes.

Variables PublicKey World : Type.
Variable platform : Platform PublicKey World.

Lemma main_forEach_lines (keys : list (ParsedMessageAccount PublicKey)) :
  forall (u : JSSet.t) (io : IO PublicKey World),
    Main.forEach platform keys (u, io)
    = (JSSet.add_all u (signers_of platform keys),
       {| world := world io;
          trace := trace io ++ main_found_lines platform u keys |}).
Proof.
  unfold Main.forEach.
  induction keys as [| account keys IH]; intros u io;
    cbn [fold_left main_found_lines].
  - rewrite app_nil_r. now destruct io.
  - unfold Main.forEach_callback at 2. unfold signers_of. cbn [filter].
    destruct (signer account); [| apply IH].
    rewrite IH. unfold console, emit. cbn [world trace map].
    now rewrite <- app_assoc.
Qed.

Lemma part000_forEach_lines (keys : list (ParsedMessageAccount PublicKey)) :
  forall (u : JSSet.t) (io : IO PublicKey World),
    Part000.forEach platform keys (u, io)
    = (JSSet.add_all u (signers_of platform keys),
       {| world := world io;
          trace := trace io ++ part000_found_lines platform u keys |}).
Proof.
  unfold Part000.forEach.
  induction keys as [| account keys IH]; intros u io;
    cbn [fold_left part000_found_lines].
  - rewrite app_nil_r. now destruct io.
  - unfold Part000.forEach_callback at 2. unfold signers_of. cbn [filter].
    destruct (signer account); [| apply IH].
    rewrite IH. destruct (JSSet.has u _); cbn [negb];
      unfold console, emit; cbn [world trace map app];
      now rewrite <- ?app_assoc.
Qed.

(** What one pass of src/main.ts does, given the ledger's answer. *)
Lemma main_pass (connection : Connection PublicKey World)
    (signatureInfo : ConfirmedSignatureInfo) (currentBlockTime : NumberOrNullish)
    (u : JSSet.t) (io : IO PublicKey World)
    (response : Attempt (option (ParsedTransactionWithMeta PublicKey)))
    (w : World) :
  getParsedTransaction connection (signature signatureInfo) 0 (world io)
  = (response, w) ->
  Main.signature_body platform connection signatureInfo currentBlockTime u io
  = (match response with
     | Err _ => ReturnValue (JSSet.Array_from u)
     | Ok _ =>
         Continue
           (if Main.blockTime_differs currentBlockTime
                 (blockTime signatureInfo)
            then blockTime signatureInfo else currentBlockTime)
           (set_after_pass platform u response)
     end,
     {| world := match processed_keys response with
                 | Some _ => elapse platform 5000 w
                 | None => w
                 end;
        trace := trace io
                 ++ main_pass_events platform signatureInfo currentBlockTime
                      u response |}).
Proof.
  intros Hfetch.
  unfold Main.signature_body, main_pass_events, set_after_pass.
  destruct (Main.blockTime_differs currentBlockTime (blockTime signatureInfo));
    unfold await_getParsedTransaction, console, emit; cbn [world trace];
    rewrite Hfetch;
    destruct response as [[tx |] | error]; cbn [processed_keys];
    try destruct (accountKeys (message (transaction tx))) as [keys |];
    rewrite ?main_forEach_lines; unfold sleep; cbn [world trace app];
    rewrite <- ?app_assoc; reflexivity.
Qed.

(** What one pass of src/unnamed/part_000 does. *)
Lemma part000_pass (connection : Connection PublicKey World)
    (signatureInfo : ConfirmedSignatureInfo) (currentBlockSlot : Z)
    (u : JSSet.t) (io : IO PublicKey World)
    (response : Attempt (option (ParsedTransactionWithMeta PublicKey)))
    (w : World) :
  getParsedTransaction connection (signature signatureInfo) 0 (world io)
  = (response, w) ->
  Part000.signature_body platform connection signatureInfo currentBlockSlot
    u io
  = (Continue
       (if negb (currentBlockSlot =? slot signatureInfo)%Z
        then slot signatureInfo else currentBlockSlot)
       (set_after_pass platform u response),
     {| world := match response with
                 | Err _ => elapse platform 10000 w
                 | Ok _ =>
                     match processed_keys response with
                     | Some _ => elapse platform 100 w
                     | None => w
                     end
                 end;
        trace := trace io
                 ++ part000_pass_events platform signatureInfo
                      currentBlockSlot u response |}).
Proof.
  intros Hfetch.
  unfold Part000.signature_body, part000_pass_events, set_after_pass.
  destruct (negb (currentBlockSlot =? slot signatureInfo)%Z);
    unfold await_getParsedTransaction, console, emit; cbn [world trace];
    rewrite Hfetch;
    destruct response as [[tx |] | error]; cbn [processed_keys];
    try destruct (accountKeys (message (transaction tx))) as [keys |];
    rewrite ?part000_forEach_lines; unfold sleep, console, emit;
    cbn [world trace app];
    rewrite <- ?app_assoc; rewrite ?app_nil_r; try reflexivity;
    now destruct io.
Qed.

(** The rule for a whole run of either script, for assertions that do
    not look at the progress variable. *)
Lemma run_script_rule (script : Script) (url : string)
    (contracts : list string) (io : IO PublicKey World)
    (outcome : Outcome) (io' : IO PublicKey World)
    (Outer : list (Event PublicKey) -> JSSet.t -> Prop)
    (Inner : list ConfirmedSignatureInfo -> list (Event PublicKey) ->
             JSSet.t -> Prop)
    (OnReturn : list (Event PublicKey) -> list string -> Prop)
    (OnRaise : list (Event PublicKey) -> JsError -> Prop) :
  (forall evs u contract key signatures,
      In contract contracts ->
      PublicKey_new platform contract = Ok key ->
      Outer evs u ->
      Inner signatures
        (evs ++ [Console Info
                   [Sym SymInfo;
                    Str ("Fetching signatures for contract:"
                         ++ PublicKey_toString platform key)%string];
                 Listed key pageOptions (Ok signatures)]) u) ->
  (forall evs u, Inner [] evs u -> Outer evs u) ->
  (forall evs u contract error,
      In contract contracts ->
      PublicKey_new platform contract = Err error ->
      Outer evs u -> OnRaise evs error) ->
  (forall evs u contract key error,
      In contract contracts ->
      PublicKey_new platform contract = Ok key ->
      Outer evs u ->
      OnRaise
        (evs ++ [Console Info
                   [Sym SymInfo;
                    Str ("Fetching signatures for contract:"
                         ++ PublicKey_toString platform key)%string];
                 Listed key pageOptions (Err error)]) error) ->
  (script = MainTs ->
   forall signatureInfo rest currentBlockTime u response evs,
     Inner (signatureInfo :: rest) evs u ->
     match response with
     | Err _ =>
         OnReturn
           (evs ++ main_pass_events platform signatureInfo currentBlockTime
                     u response)
           (JSSet.Array_from u)
     | Ok _ =>
         Inner rest
           (evs ++ main_pass_events platform signatureInfo currentBlockTime
                     u response)
           (set_after_pass platform u response)
     end) ->
  (script = Part000Ts ->
   forall signatureInfo rest currentBlockSlot u response evs,
     Inner (signatureInfo :: rest) evs u ->
     Inner rest
       (evs ++ part000_pass_events platform signatureInfo currentBlockSlot
                 u response)
       (set_after_pass platform u response)) ->
  Outer [] JSSet.empty ->
  run_script platform script url contracts io = (outcome, io') ->
  match Connection_new platform url "confirmed" with
  | Err error => outcome = Thrown error /\ io' = io
  | Ok _ =>
      match outcome with
      | Returned value =>
          Outer (events_since io io') value
          \/ OnReturn (events_since io io') value
      | Thrown error => OnRaise (events_since io io') error
      end
  end.
Proof.
  intros Henter Hleave Hkey Hlisting Hmain Hpart Hstart Hrun.
  destruct script; simpl in Hrun.
  - eapply getInteractingAddresses_rule
      with (Inner := fun sigs (_ : NumberOrNullish) => Inner sigs)
           (Outer := Outer) (OnReturn := OnReturn) (OnRaise := OnRaise);
      try eassumption; auto.
    intros connection signatureInfo rest cursor u io0 flow io1 evs Hinv Hbody.
    destruct (getParsedTransaction connection (signature signatureInfo) 0
                (world io0)) as [response w] eqn:Hfetch.
    rewrite (main_pass _ _ _ _ _ Hfetch) in Hbody.
    injection Hbody as <- <-. eexists. split; [reflexivity |].
    specialize (Hmain eq_refl signatureInfo rest cursor u response evs Hinv).
    now destruct response.
  - eapply getInteractingAddresses_rule
      with (Inner := fun sigs (_ : Z) => Inner sigs)
           (Outer := Outer) (OnReturn := OnReturn) (OnRaise := OnRaise);
      try eassumption; auto.
    intros connection signatureInfo rest cursor u io0 flow io1 evs Hinv Hbody.
    destruct (getParsedTransaction connection (signature signatureInfo) 0
                (world io0)) as [response w] eqn:Hfetch.
    rewrite (part000_pass _ _ _ _ _ Hfetch) in Hbody.
    injection Hbody as <- <-. eexists. split; [reflexivity |].
    now apply Hpart.
Qed.

End Passes.

(** ** Observations of one pass *)

Section PassFacts.

Variables PublicKey World : Type.
Variable platform : Platform PublicKey World.

Lemma main_found_lines_console
    (keys : list (ParsedMessageAccount PublicKey)) :
  forall u : JSSet.t,
    forallb (@is_console PublicKey) (main_found_lines platform u keys) = true.
Proof.
  induction keys as [| account keys IH]; intros u; simpl; [reflexivity |].
  destruct (signer account); simpl; apply IH.
Qed.

Lemma part000_found_lines_console
    (keys : list (ParsedMessageAccount PublicKey)) :
  forall u : JSSet.t,
    forallb (@is_console PublicKey) (part000_found_lines platform u keys)
    = true.
Proof.
  induction keys as [| account keys IH]; intros u; simpl; [reflexivity |].
  destruct (signer account); [| apply IH].
  destruct (JSSet.has u _); simpl; apply IH.
Qed.

(** An observation that ignores console lines sees of a pass only the
    fetch and the wait. *)
Lemma main_pass_flat_map (X : Type) (g : Event PublicKey -> list X)
    (signatureInfo : ConfirmedSignatureInfo) (currentBlockTime : NumberOrNullish)
    (u : JSSet.t)
    (response : Attempt (option (ParsedTransactionWithMeta PublicKey))) :
  (forall level args, g (Console level args) = []) ->
  flat_map g
    (main_pass_events platform signatureInfo currentBlockTime u response)
  = g (Fetched (signature signatureInfo) 0 response)
    ++ match processed_keys response with
       | Some _ => g (Slept 5000)
       | None => []
       end.
Proof.
  intros Hg. unfold main_pass_events.
  destruct (Main.blockTime_differs _ _);
    destruct response as [[tx |] | error]; cbn [processed_keys];
    try destruct (accountKeys (message (transaction tx))) as [keys |];
    rewrite ?flat_map_app;
    try match goal with
        | |- context [flat_map g (main_found_lines platform ?v ?k)] =>
            rewrite (console_flat_map _ (main_found_lines_console k v) g Hg)
        end;
    simpl; rewrite ?Hg, ?app_nil_r; reflexivity.
Qed.

Lemma part000_pass_flat_map (X : Type) (g : Event PublicKey -> list X)
    (signatureInfo : ConfirmedSignatureInfo) (currentBlockSlot : Z)
    (u : JSSet.t)
    (response : Attempt (option (ParsedTransactionWithMeta PublicKey))) :
  (forall level args, g (Console level args) = []) ->
  flat_map g
    (part000_pass_events platform signatureInfo currentBlockSlot u response)
  = g (Fetched (signature signatureInfo) 0 response)
    ++ match response with
       | Err _ => g (Slept 10000)
       | Ok _ =>
           match processed_keys response with
           | Some _ => g (Slept 100)
           | None => []
           end
       end.
Proof.
  intros Hg. unfold part000_pass_events.
  destruct (negb _);
    destruct response as [[tx |] | error]; cbn [processed_keys];
    try destruct (accountKeys (message (transaction tx))) as [keys |];
    rewrite ?flat_map_app;
    try match goal with
        | |- context [flat_map g (part000_found_lines platform ?v ?k)] =>
            rewrite (console_flat_map _ (part000_found_lines_console k v) g Hg)
        end;
    simpl; rewrite ?Hg, ?app_nil_r; reflexivity.
Qed.

Lemma filter_as_flat_map (A : Type) (p : A -> bool) (l : list A) :
  filter p l = flat_map (fun x => if p x then [x] else []) l.
Proof.
  induction l as [| a l IH]; simpl; [reflexivity |].
  rewrite IH. now destruct (p a).
Qed.

Lemma run_script_extends (script : Script) (url : string)
    (contracts : list string) (io : IO PublicKey World)
    (outcome : Outcome) (io' : IO PublicKey World) :
  run_script platform script url contracts io = (outcome, io') ->
  trace io' = trace io ++ events_since io io'.
Proof.
  rewrite run_script_unfold.
  destruct (Connection_new platform url "confirmed") as [connection | error].
  - destruct (run_contracts platform script connection contracts
                JSSet.empty io) as [flow io1] eqn:Hloop.
    apply run_contracts_spec in Hloop as (evs & Ht & _).
    intros Hrun.
    assert (io1 = io') as -> by (destruct flow; congruence).
    now rewrite (@events_since_app _ _ _ _ _ Ht).
  - intros H; injection H as <- <-. unfold events_since.
    now rewrite skipn_all, app_nil_r.
Qed.

End PassFacts.

(** ** How a run can throw *)

Section Throwing.

Variables PublicKey World : Type.
Variable platform : Platform PublicKey World.

Local Abbreviation clean evs :=
  (filter (@is_rejected_listing PublicKey) evs = []).

Lemma main_pass_lists_nothing signatureInfo currentBlockTime u response :
  clean (main_pass_events platform signatureInfo currentBlockTime u response).
Proof.
  rewrite filter_as_flat_map, main_pass_flat_map by reflexivity.
  simpl. now destruct (processed_keys response).
Qed.

Lemma part000_pass_lists_nothing signatureInfo currentBlockSlot u response :
  clean
    (part000_pass_events platform signatureInfo currentBlockSlot u response).
Proof.
  rewrite filter_as_flat_map, part000_pass_flat_map by reflexivity.
  simpl. destruct response; [| reflexivity].
  now destruct (processed_keys _).
Qed.

Lemma run_listing_failures (script : Script) (url : string)
    (contracts : list string) (io : IO PublicKey World)
    (outcome : Outcome) (io' : IO PublicKey World) :
  run_script platform script url contracts io = (outcome, io') ->
  match Connection_new platform url "confirmed" with
  | Err error => outcome = Thrown error /\ io' = io
  | Ok _ =>
      match outcome with
      | Returned _ => clean (events_since io io')
      | Thrown error =>
          (clean (events_since io io')
           /\ exists contract,
                In contract contracts
                /\ PublicKey_new platform contract = Err error)
          \/ (exists pre address options,
                events_since io io'
                = pre ++ [Listed address options (Err error)]
                /\ clean pre)
      end
  end.
Proof.
  intros Hrun.
  pose proof (@run_script_rule _ _ platform script url contracts io outcome io'
                (fun evs _ => clean evs) (fun _ evs _ => clean evs)
                (fun evs _ => clean evs)
                (fun evs error =>
                   (clean evs
                    /\ exists contract,
                         In contract contracts
                         /\ PublicKey_new platform contract = Err error)
                   \/ (exists pre address options,
                         evs = pre ++ [Listed address options (Err error)]
                         /\ clean pre))) as Hrule.
  cbv beta in Hrule.
  assert (Hgoal := fun a b c d e f g => Hrule a b c d e f g Hrun).
  clear Hrule.
  match type of Hgoal with
  | _ -> _ -> _ -> _ -> _ -> _ -> _ -> ?C =>
      assert (Hres : C); [apply Hgoal |]
  end.
  - intros evs u contract key signatures _ _ Hclean.
    now rewrite filter_app, Hclean.
  - auto.
  - intros evs u contract error Hin Hkey Hclean. left. eauto.
  - intros evs u contract key error _ _ Hclean. right.
    eexists (evs ++ [_]), key, pageOptions. split.
    + now rewrite <- app_assoc.
    + now rewrite filter_app, Hclean.
  - intros _ signatureInfo rest cbt u response evs Hclean.
    destruct response;
      now rewrite filter_app, Hclean, main_pass_lists_nothing.
  - intros _ signatureInfo rest cbs u response evs Hclean.
    now rewrite filter_app, Hclean, part000_pass_lists_nothing.
  - reflexivity.
  - destruct (Connection_new platform url "confirmed"); [| exact Hres].
    destruct outcome; [| exact Hres]. now destruct Hres.
Qed.

End Throwing.

(** X1.  A run of either script throws for one of three reasons only,
    and then with the error of that reason: the connection object cannot
    be built, one of the addresses is not a public key, or a listing call
    fails, in which case that call is the last event.  A failed fetch
    never makes a run throw. *)
Theorem X1_what_makes_a_run_throw
    (PublicKey World : Type) (platform : Platform PublicKey World)
    (script : Script) (url : string) (contracts : list string)
    (io : IO PublicKey World) (error : JsError)
    (io' : IO PublicKey World) :
  run_script platform script url contracts io = (Thrown error, io') ->
  Connection_new platform url "confirmed" = Err error
  \/ (exists contract,
        In contract contracts
        /\ PublicKey_new platform contract = Err error)
  \/ (exists pre address options,
        events_since io io' = pre ++ [Listed address options (Err error)]).
Proof.
  intros Hrun. apply run_listing_failures in Hrun.
  destruct (Connection_new platform url "confirmed") as [connection | e].
  - right. destruct Hrun as [(_ & Hkey) | (pre & a & o & Hevs & _)]; eauto.
  - left. destruct Hrun as (Heq & _). congruence.
Qed.

Lemma X1_witness :
  run_script Fixture.platform Part000Ts Fixture.url
    ["Program1"; "Down"; "Program2"] Fixture.start
  = (Thrown "503 Service Unavailable", snd (Scenario.down_run Part000Ts))
  /\ (Connection_new Fixture.platform Fixture.url "confirmed"
      = Err "503 Service Unavailable"
      \/ (exists contract,
            In contract ["Program1"; "Down"; "Program2"]
            /\ PublicKey_new Fixture.platform contract
               = Err "503 Service Unavailable")
      \/ (exists pre address options,
            events_since Fixture.start (snd (Scenario.down_run Part000Ts))
            = pre ++ [Listed address options
                        (Err "503 Service Unavailable")])).
Proof.
  assert (H : run_script Fixture.platform Part000Ts Fixture.url
                ["Program1"; "Down"; "Program2"] Fixture.start
              = (Thrown "503 Service Unavailable",
                 snd (Scenario.down_run Part000Ts)))
    by (vm_compute; reflexivity).
  split; [exact H |].
  exact (@X1_what_makes_a_run_throw _ _ Fixture.platform Part000Ts
           Fixture.url ["Program1"; "Down"; "Program2"] Fixture.start _ _ H).
Defined.

(** X2.  A failed listing call is fatal in both scripts: it is the last
    event of the run, nothing is fetched or listed after it, and the run
    throws the error of that call, so what was collected until then is
    not returned. *)
Theorem X2_failed_listing_ends_the_run
    (PublicKey World : Type) (platform : Platform PublicKey World)
    (script : Script) (url : string) (contracts : list string)
    (io : IO PublicKey World) (outcome : Outcome)
    (io' : IO PublicKey World)
    (pre : list (Event PublicKey)) (address : PublicKey)
    (options : SignaturesForAddressOptions) (error : JsError)
    (post : list (Event PublicKey)) :
  run_script platform script url contracts io = (outcome, io') ->
  events_since io io' = pre ++ Listed address options (Err error) :: post ->
  outcome = Thrown error /\ post = [].
Proof.
  intros Hrun Hevs.
  assert (Hmark : forall l r,
             filter (@is_rejected_listing PublicKey)
               (l ++ Listed address options (Err error) :: r) <> []).
  { intros l r H. rewrite filter_app in H. simpl in H.
    now apply app_eq_nil in H as [_ ?]. }
  apply run_listing_failures in Hrun.
  destruct (Connection_new platform url "confirmed") as [connection | e].
  - rewrite Hevs in Hrun. destruct outcome as [value | e].
    + now apply Hmark in Hrun.
    + destruct Hrun as [(Hclean & _) | (pre' & a & o & Heq & Hclean)].
      * now apply Hmark in Hclean.
      * destruct (@first_mark_unique _ (@is_rejected_listing PublicKey)
                    pre _ post pre' _ [] Heq eq_refl Hclean eq_refl)
          as (_ & Hx & ->).
        injection Hx as _ _ ->. auto.
  - destruct Hrun as (_ & ->). unfold events_since in Hevs.
    rewrite skipn_all in Hevs. now destruct pre.
Qed.

Lemma X2_witness :
  (run_script Fixture.platform MainTs Fixture.url
     ["Program1"; "Down"; "Program2"] Fixture.start
   = (fst (Scenario.down_run MainTs), snd (Scenario.down_run MainTs))
   /\ events_since Fixture.start (snd (Scenario.down_run MainTs))
      = firstn 16 (trace (snd (Scenario.down_run MainTs)))
        ++ Listed "Down" pageOptions (Err "503 Service Unavailable")
        :: skipn 17 (trace (snd (Scenario.down_run MainTs))))
  /\ fst (Scenario.down_run MainTs) = Thrown "503 Service Unavailable"
  /\ skipn 17 (trace (snd (Scenario.down_run MainTs))) = [].
Proof.
  assert (H1 : run_script Fixture.platform MainTs Fixture.url
                 ["Program1"; "Down"; "Program2"] Fixture.start
               = (fst (Scenario.down_run MainTs),
                  snd (Scenario.down_run MainTs)))
    by (vm_compute; reflexivity).
  assert (H2 : events_since Fixture.start (snd (Scenario.down_run MainTs))
               = firstn 16 (trace (snd (Scenario.down_run MainTs)))
                 ++ Listed "Down" pageOptions (Err "503 Service Unavailable")
                 :: skipn 17 (trace (snd (Scenario.down_run MainTs))))
    by (vm_compute; reflexivity).
  split; [split; assumption |].
  exact (@X2_failed_listing_ends_the_run _ _ Fixture.platform MainTs
           Fixture.url ["Program1"; "Down"; "Program2"] Fixture.start
           _ _ _ _ _ _ _ H1 H2).
Defined.

(** ** Which signatures are fetched *)

Section Fetching.

Variables PublicKey World : Type.
Variable platform : Platform PublicKey World.

Local Abbreviation versions_ok evs :=
  (Forall (fun version => version = 0%Z) (@fetch_versions PublicKey evs)).

Lemma run_fetches_listed (script : Script) (url : string)
    (contracts : list string) (io : IO PublicKey World)
    (outcome : Outcome) (io' : IO PublicKey World) :
  run_script platform script url contracts io = (outcome, io') ->
  match Connection_new platform url "confirmed" with
  | Err error => io' = io
  | Ok _ =>
      versions_ok (events_since io io')
      /\ (fetch_requests (events_since io io')
          = listed_signatures (events_since io io')
          \/ (script = MainTs
              /\ filter (@is_rejected_fetch PublicKey) (events_since io io')
                 <> []
              /\ exists tail,
                   listed_signatures (events_since io io')
                   = fetch_requests (events_since io io') ++ tail))
  end.
Proof.
  intros Hrun.
  pose proof (@run_script_rule _ _ platform script url contracts io outcome io'
                (fun evs _ =>
                   fetch_requests evs = listed_signatures evs
                   /\ versions_ok evs)
                (fun sigs evs _ =>
                   listed_signatures evs
                   = fetch_requests evs ++ map signature sigs
                   /\ versions_ok evs)
                (fun evs _ =>
                   script = MainTs
                   /\ filter (@is_rejected_fetch PublicKey) evs <> []
                   /\ (exists tail,
                         listed_signatures evs = fetch_requests evs ++ tail)
                   /\ versions_ok evs)
                (fun evs _ =>
                   fetch_requests evs = listed_signatures evs
                   /\ versions_ok evs)) as Hrule.
  cbv beta in Hrule.
  assert (Hgoal := fun a b c d e f g => Hrule a b c d e f g Hrun).
  clear Hrule.
  match type of Hgoal with
  | _ -> _ -> _ -> _ -> _ -> _ -> _ -> ?C =>
      assert (Hres : C); [apply Hgoal |]
  end.
  - intros evs u contract key signatures _ _ (Hf & Hv).
    rewrite listed_signatures_app, fetch_requests_app. unfold fetch_versions.
    rewrite flat_map_app. simpl. rewrite !app_nil_r. split; [congruence |].
    exact Hv.
  - intros evs u (Hl & Hv). rewrite app_nil_r in Hl. auto.
  - auto.
  - intros evs u contract key error _ _ (Hf & Hv).
    rewrite listed_signatures_app, fetch_requests_app. unfold fetch_versions.
    rewrite flat_map_app. simpl. rewrite !app_nil_r. auto.
  - intros Hscript signatureInfo rest cbt u response evs (Hl & Hv).
    assert (Hf : fetch_requests
                   (evs ++ main_pass_events platform signatureInfo cbt u
                             response)
                 = fetch_requests evs ++ [signature signatureInfo]).
    { rewrite fetch_requests_app. unfold fetch_requests at 2.
      rewrite main_pass_flat_map by reflexivity.
      now destruct (processed_keys response). }
    assert (Hls : listed_signatures
                    (evs ++ main_pass_events platform signatureInfo cbt u
                              response)
                  = listed_signatures evs).
    { rewrite listed_signatures_app. unfold listed_signatures at 2.
      rewrite main_pass_flat_map by reflexivity.
      destruct (processed_keys response); apply app_nil_r. }
    assert (Hvs : versions_ok
                    (evs ++ main_pass_events platform signatureInfo cbt u
                              response)).
    { unfold fetch_versions. rewrite flat_map_app.
      rewrite main_pass_flat_map by reflexivity. apply Forall_app.
      split; [exact Hv |].
      destruct (processed_keys response); repeat constructor. }
    rewrite Hf, Hls, Hl, <- app_assoc.
    destruct response as [answer | error]; [auto |].
    split; [assumption |].
    split; [| split; [exists (map signature rest);
                      now rewrite <- app_assoc | assumption]].
    rewrite filter_app, filter_as_flat_map,
      (filter_as_flat_map _ (main_pass_events _ _ _ _ _)),
      main_pass_flat_map by reflexivity.
    simpl. intros H. now apply app_eq_nil in H as [_ ?].
  - intros _ signatureInfo rest cbs u response evs (Hl & Hv).
    rewrite fetch_requests_app, listed_signatures_app.
    unfold fetch_versions, fetch_requests at 2, listed_signatures at 2.
    rewrite flat_map_app, !part000_pass_flat_map by reflexivity.
    rewrite Hl, <- app_assoc. split.
    + destruct response as [answer | error];
        [destruct (processed_keys (Ok answer)) |];
        simpl; rewrite ?app_nil_r, <- ?app_assoc; reflexivity.
    + apply Forall_app. split; [exact Hv |].
      destruct response as [answer | error];
        [destruct (processed_keys (Ok answer)) |]; repeat constructor.
  - split; [reflexivity | constructor].
  - destruct (Connection_new platform url "confirmed");
      [| now destruct Hres].
    destruct outcome as [v | e].
    + destruct Hres as [(Hf & Hv) | (Hs & Hr & Ht & Hv)]; auto.
    + destruct Hres as (Hf & Hv). auto.
Qed.

End Fetching.

(** X3.  In both scripts the fetch requests are the signatures the
    listing calls returned, in the order they were returned and each at
    most once, always with maxSupportedTransactionVersion 0.  Nothing
    listed is left out unless src/main.ts gave up on a failed fetch: then
    the requests stop with the failed one. *)
Theorem X3_fetches_follow_the_listing
    (PublicKey World : Type) (platform : Platform PublicKey World)
    (script : Script) (url : string) (contracts : list string)
    (io : IO PublicKey World) (outcome : Outcome)
    (io' : IO PublicKey World) :
  run_script platform script url contracts io = (outcome, io') ->
  exists not_fetched,
    listed_signatures (events_since io io')
    = fetch_requests (events_since io io') ++ not_fetched
    /\ Forall (fun version => version = 0%Z)
         (fetch_versions (events_since io io'))
    /\ (script = Part000Ts
        \/ filter (@is_rejected_fetch PublicKey) (events_since io io') = [] ->
        not_fetched = []).
Proof.
  intros Hrun. apply run_fetches_listed in Hrun.
  destruct (Connection_new platform url "confirmed") as [connection | e].
  - destruct Hrun as (Hv & [Heq | (Hs & Hr & tail & Ht)]).
    + exists []. rewrite app_nil_r. auto.
    + exists tail. repeat split; try assumption.
      intros [-> | Hclean]; [discriminate | contradiction].
  - subst io'. unfold events_since. rewrite skipn_all.
    exists []. repeat split; constructor.
Qed.

Lemma X3_witness :
  run_script Fixture.platform MainTs Fixture.url
    ["Program1"; "Program2"; "Program3"] Fixture.start
  = (fst Fixture.abort_run, snd Fixture.abort_run)
  /\ exists not_fetched,
       listed_signatures (events_since Fixture.start (snd Fixture.abort_run))
       = fetch_requests (events_since Fixture.start (snd Fixture.abort_run))
         ++ not_fetched
       /\ Forall (fun version => version = 0%Z)
            (fetch_versions
               (events_since Fixture.start (snd Fixture.abort_run)))
       /\ (MainTs = Part000Ts
           \/ filter (@is_rejected_fetch string)
                (events_since Fixture.start (snd Fixture.abort_run)) = [] ->
           not_fetched = []).
Proof.
  assert (H : run_script Fixture.platform MainTs Fixture.url
                ["Program1"; "Program2"; "Program3"] Fixture.start
              = (fst Fixture.abort_run, snd Fixture.abort_run))
    by (vm_compute; reflexivity).
  split; [exact H |].
  exact (@X3_fetches_follow_the_listing _ _ Fixture.platform MainTs
           Fixture.url ["Program1"; "Program2"; "Program3"] Fixture.start
           _ _ H).
Defined.

(** ** The progress lines *)

Lemma numbered_app (a b : list string) :
  forall n : Z,
    numbered n (a ++ b)
    = numbered n a ++ numbered (n + Z.of_nat (List.length a)) b.
Proof.
  induction a as [| x a IH]; intros n; simpl.
  - now rewrite Z.add_0_r.
  - rewrite IH. do 3 f_equal. lia.
Qed.

Lemma numbered_fst (l : list string) :
  forall n : Z, map fst (numbered n l) = l.
Proof.
  induction l as [| x l IH]; intros n; simpl; [reflexivity |].
  now rewrite IH.
Qed.

Lemma first_occurrences_length (l : list string) :
  (List.length (first_occurrences l) <= List.length l)%nat.
Proof.
  induction l as [| x l IH]; simpl; [lia |].
  apply le_n_S. etransitivity; [apply filter_length_le | exact IH].
Qed.

Section Reports.

Variables PublicKey World : Type.
Variable platform : Platform PublicKey World.

Lemma found_reports_app (a b : list (Event PublicKey)) :
  found_reports (a ++ b) = found_reports a ++ found_reports b.
Proof. apply flat_map_app. Qed.

Lemma slot_reports_app (a b : list (Event PublicKey)) :
  slot_reports (a ++ b) = slot_reports a ++ slot_reports b.
Proof. apply flat_map_app. Qed.

(** src/unnamed/part_000 prints a line for the keys that are new, with
    their place in the set. *)
Lemma part000_found_numbered (keys : list (ParsedMessageAccount PublicKey)) :
  forall u : JSSet.t,
    numbered 1 u ++ found_reports (part000_found_lines platform u keys)
    = numbered 1 (JSSet.add_all u (signers_of platform keys)).
Proof.
  induction keys as [| account keys IH]; intros u;
    cbn [part000_found_lines].
  - simpl. apply app_nil_r.
  - assert (Hs : signers_of platform (account :: keys)
                 = if signer account
                   then PublicKey_toString platform (pubkey account)
                        :: signers_of platform keys
                   else signers_of platform keys)
      by (unfold signers_of; simpl; now destruct (signer account)).
    rewrite Hs. destruct (signer account); [| apply IH].
    change (JSSet.add_all u (?a :: ?l))
      with (JSSet.add_all (JSSet.add u a) l).
    rewrite <- IH. unfold JSSet.add.
    destruct (JSSet.has u (PublicKey_toString platform (pubkey account))).
    + reflexivity.
    + rewrite found_reports_app, numbered_app, <- app_assoc.
      unfold JSSet.size.
      replace (1 + Z.of_nat (List.length u))%Z
        with (Z.of_nat (List.length u) + 1)%Z by lia.
      reflexivity.
Qed.

(** src/main.ts prints a line for every entry flagged as signer. *)
Lemma main_found_addresses (keys : list (ParsedMessageAccount PublicKey)) :
  forall u : JSSet.t,
    map fst (found_reports (main_found_lines platform u keys))
    = signers_of platform keys.
Proof.
  induction keys as [| account keys IH]; intros u;
    cbn [main_found_lines]; [reflexivity |].
  unfold signers_of. cbn [filter].
  destruct (signer account); [| apply IH].
  simpl. f_equal. apply IH.
Qed.

Lemma part000_pass_found signatureInfo currentBlockSlot u response :
  found_reports
    (part000_pass_events platform signatureInfo currentBlockSlot u response)
  = match processed_keys response with
    | Some keys => found_reports (part000_found_lines platform u keys)
    | None => []
    end.
Proof.
  unfold part000_pass_events.
  destruct (negb _);
    destruct response as [[tx |] | error]; cbn [processed_keys];
    try destruct (accountKeys (message (transaction tx))) as [keys |];
    rewrite ?found_reports_app; simpl; rewrite ?app_nil_r; reflexivity.
Qed.

Lemma main_pass_found signatureInfo currentBlockTime u response :
  found_reports
    (main_pass_events platform signatureInfo currentBlockTime u response)
  = match processed_keys response with
    | Some keys => found_reports (main_found_lines platform u keys)
    | None => []
    end.
Proof.
  unfold main_pass_events.
  destruct (Main.blockTime_differs _ _);
    destruct response as [[tx |] | error]; cbn [processed_keys];
    try destruct (accountKeys (message (transaction tx))) as [keys |];
    rewrite ?found_reports_app; simpl; rewrite ?app_nil_r; reflexivity.
Qed.

End Reports.

(** X4.  In src/unnamed/part_000 the lines "Found new unique address"
    of a run that returns are, in order, exactly the addresses it
    returns, each printed once, and the total printed with the k-th
    address is k. *)
Theorem X4_part000_reports_each_result_once
    (PublicKey World : Type) (platform : Platform PublicKey World)
    (url : string) (contracts : list string) (io : IO PublicKey World)
    (value : list string) (io' : IO PublicKey World) :
  Part000.getInteractingAddresses platform url contracts io
  = (Returned value, io') ->
  found_reports (events_since io io') = numbered 1 value.
Proof.
  intros Hrun.
  change (run_script platform Part000Ts url contracts io
          = (Returned value, io')) in Hrun.
  pose proof (@run_script_rule _ _ platform Part000Ts url contracts io
                (Returned value) io'
                (fun evs u => found_reports evs = numbered 1 u)
                (fun _ evs u => found_reports evs = numbered 1 u)
                (fun _ _ => False)
                (fun _ _ => True)) as Hrule.
  cbv beta in Hrule.
  assert (Hgoal := fun a b c d e f g => Hrule a b c d e f g Hrun).
  clear Hrule.
  match type of Hgoal with
  | _ -> _ -> _ -> _ -> _ -> _ -> _ -> ?C =>
      assert (Hres : C); [apply Hgoal |]
  end.
  - intros evs u contract key signatures _ _ Hinv.
    rewrite found_reports_app, Hinv. simpl. apply app_nil_r.
  - auto.
  - auto.
  - auto.
  - discriminate.
  - intros _ signatureInfo rest cbs u response evs Hinv.
    rewrite found_reports_app, Hinv, part000_pass_found.
    unfold set_after_pass.
    destruct (processed_keys response) as [keys |].
    + apply part000_found_numbered.
    + apply app_nil_r.
  - reflexivity.
  - destruct (Connection_new platform url "confirmed").
    + now destruct Hres.
    + now destruct Hres.
Qed.

Lemma X4_witness :
  Part000.getInteractingAddresses Fixture.platform Fixture.url
    ["Program2"; "Program3"] Fixture.start
  = (Returned ["Bob"; "Alice"; "Carol"], snd Fixture.skip_run)
  /\ found_reports (events_since Fixture.start (snd Fixture.skip_run))
     = [("Bob", 1%Z); ("Alice", 2%Z); ("Carol", 3%Z)].
Proof.
  assert (H : Part000.getInteractingAddresses Fixture.platform Fixture.url
                ["Program2"; "Program3"] Fixture.start
              = (Returned ["Bob"; "Alice"; "Carol"], snd Fixture.skip_run))
    by (vm_compute; reflexivity).
  split; [exact H |].
  exact (@X4_part000_reports_each_result_once _ _ Fixture.platform
           Fixture.url ["Program2"; "Program3"] Fixture.start _ _ H).
Defined.

(** X5.  In src/main.ts the lines "Found new unique address" are one
    per account entry flagged as signer in a processed transaction, in
    order and with repetitions: a key that is already in the set is
    printed again.  So there are at least as many lines as addresses
    returned. *)
Theorem X5_main_reports_every_signer_entry
    (PublicKey World : Type) (platform : Platform PublicKey World)
    (url : string) (contracts : list string) (io : IO PublicKey World)
    (outcome : Outcome) (io' : IO PublicKey World) :
  Main.getInteractingAddresses platform url contracts io = (outcome, io') ->
  map fst (found_reports (events_since io io'))
  = observed_signers platform (events_since io io')
  /\ forall value,
       outcome = Returned value ->
       (List.length value
        <= List.length (found_reports (events_since io io')))%nat.
Proof.
  intros Hrun.
  change (run_script platform MainTs url contracts io = (outcome, io'))
    in Hrun.
  assert (Haddr : map fst (found_reports (events_since io io'))
                  = observed_signers platform (events_since io io')).
  { pose proof (@run_script_rule _ _ platform MainTs url contracts io
                  outcome io'
                  (fun evs _ =>
                     map fst (found_reports evs)
                     = observed_signers platform evs)
                  (fun _ evs _ =>
                     map fst (found_reports evs)
                     = observed_signers platform evs)
                  (fun evs _ =>
                     map fst (found_reports evs)
                     = observed_signers platform evs)
                  (fun evs _ =>
                     map fst (found_reports evs)
                     = observed_signers platform evs)) as Hrule.
    cbv beta in Hrule.
    assert (Hgoal := fun a b c d e f g => Hrule a b c d e f g Hrun).
    clear Hrule.
    match type of Hgoal with
    | _ -> _ -> _ -> _ -> _ -> _ -> _ -> ?C =>
        assert (Hres : C); [apply Hgoal |]
    end.
    - intros evs u contract key signatures _ _ Hinv.
      rewrite found_reports_app, observed_signers_app, map_app, Hinv.
      reflexivity.
    - auto.
    - auto.
    - intros evs u contract key error _ _ Hinv.
      rewrite found_reports_app, observed_signers_app, map_app, Hinv.
      reflexivity.
    - intros _ signatureInfo rest cbt u response evs Hinv.
      assert (Hpass :
                map fst (found_reports
                           (evs ++ main_pass_events platform signatureInfo
                                     cbt u response))
                = observed_signers platform
                    (evs ++ main_pass_events platform signatureInfo cbt u
                              response)).
      { rewrite found_reports_app, observed_signers_app, map_app, Hinv.
        f_equal. rewrite main_pass_found. unfold observed_signers.
        rewrite main_pass_flat_map by reflexivity. simpl.
        destruct (processed_keys response) as [keys |]; simpl;
          [| reflexivity].
        rewrite app_nil_r. apply main_found_addresses. }
      now destruct response.
    - discriminate.
    - reflexivity.
    - destruct (Connection_new platform url "confirmed").
      + destruct outcome; [now destruct Hres | exact Hres].
      + destruct Hres as (_ & ->). unfold events_since.
        now rewrite skipn_all. }
  split; [exact Haddr |].
  intros value ->. apply run_script_returns in Hrun. subst value.
  rewrite JSSetFacts.add_all_first_occurrences, <- Haddr. simpl.
  etransitivity; [apply filter_length_le |].
  etransitivity; [apply first_occurrences_length |].
  now rewrite length_map.
Qed.

Lemma X5_witness :
  Main.getInteractingAddresses Fixture.platform Fixture.url
    ["Program1"; "Program2"; "Program3"] Fixture.start
  = (fst Fixture.abort_run, snd Fixture.abort_run)
  /\ map fst (found_reports
                (events_since Fixture.start (snd Fixture.abort_run)))
     = ["Alice"; "Bob"; "Bob"; "Alice"; "Carol"].
Proof.
  assert (H : Main.getInteractingAddresses Fixture.platform Fixture.url
                ["Program1"; "Program2"; "Program3"] Fixture.start
              = (fst Fixture.abort_run, snd Fixture.abort_run))
    by (vm_compute; reflexivity).
  split; [exact H |].
  exact (eq_trans
           (proj1 (@X5_main_reports_every_signer_entry _ _ Fixture.platform
                     Fixture.url ["Program1"; "Program2"; "Program3"]
                     Fixture.start _ _ H))
           eq_refl).
Defined.

(** ** The progress variable of src/unnamed/part_000 *)

Section Slots.

Variables PublicKey World : Type.
Variable platform : Platform PublicKey World.

Lemma part000_found_lines_no_slot
    (keys : list (ParsedMessageAccount PublicKey)) :
  forall u : JSSet.t,
    slot_reports (part000_found_lines platform u keys) = [].
Proof.
  induction keys as [| account keys IH]; intros u; simpl; [reflexivity |].
  destruct (signer account); [| apply IH].
  destruct (JSSet.has u _); simpl; apply IH.
Qed.

Lemma part000_pass_slots signatureInfo currentBlockSlot u
    (response : Attempt (option (ParsedTransactionWithMeta PublicKey))) :
  slot_reports
    (part000_pass_events platform signatureInfo currentBlockSlot u response)
  = if (currentBlockSlot =? slot signatureInfo)%Z
    then [] else [slot signatureInfo].
Proof.
  unfold part000_pass_events.
  destruct (currentBlockSlot =? slot signatureInfo)%Z;
    destruct response as [[tx |] | error];
    try destruct (accountKeys (message (transaction tx))) as [keys |];
    rewrite ?slot_reports_app, ?part000_found_lines_no_slot; reflexivity.
Qed.

Lemma part000_pass_lists_no_slots signatureInfo currentBlockSlot u
    (response : Attempt (option (ParsedTransactionWithMeta PublicKey))) :
  listed_slot_changes
    (part000_pass_events platform signatureInfo currentBlockSlot u response)
  = [].
Proof.
  unfold listed_slot_changes.
  rewrite part000_pass_flat_map by reflexivity.
  destruct response as [answer |];
    [destruct (processed_keys (Ok answer)) |]; reflexivity.
Qed.

Lemma listed_slot_changes_app (a b : list (Event PublicKey)) :
  listed_slot_changes (a ++ b)
  = listed_slot_changes a ++ listed_slot_changes b.
Proof. apply flat_map_app. Qed.

End Slots.

(** X6.  In src/unnamed/part_000 the progress variable starts at 0 for
    every address and follows the slot of the last signature seen: over
    a whole run the lines "New block slot!" are exactly the slots that
    differ from the slot before them within their page, the first slot
    of a page being compared with 0. *)
Theorem X6_part000_reports_slot_changes
    (PublicKey World : Type) (platform : Platform PublicKey World)
    (url : string) (contracts : list string) (io : IO PublicKey World)
    (outcome : Outcome) (io' : IO PublicKey World) :
  Part000.getInteractingAddresses platform url contracts io
  = (outcome, io') ->
  slot_reports (events_since io io')
  = listed_slot_changes (events_since io io').
Proof.
  intros Hrun. unfold Part000.getInteractingAddresses in Hrun.
  pose proof (@getInteractingAddresses_rule _ _ platform Z 0%Z
                (Part000.signature_body platform) contracts
                (fun evs _ => listed_slot_changes evs = slot_reports evs)
                (fun sigs cursor evs _ =>
                   listed_slot_changes evs
                   = slot_reports evs ++ slot_changes cursor (map slot sigs))
                (fun _ _ => False)
                (fun evs _ => listed_slot_changes evs = slot_reports evs))
    as Hrule.
  cbv beta in Hrule.
  assert (Hgoal := fun a b c d e f =>
                     Hrule a b c d e url io outcome io' f Hrun).
  clear Hrule.
  match type of Hgoal with
  | _ -> _ -> _ -> _ -> _ -> _ -> ?C =>
      assert (Hres : C); [apply Hgoal |]
  end.
  - intros evs u contract key signatures _ _ Hinv.
    rewrite listed_slot_changes_app, slot_reports_app, Hinv. simpl.
    now rewrite !app_nil_r.
  - intros cursor evs u Hinv. simpl in Hinv. now rewrite app_nil_r in Hinv.
  - auto.
  - intros evs u contract key error _ _ Hinv.
    rewrite listed_slot_changes_app, slot_reports_app, Hinv. simpl.
    now rewrite !app_nil_r.
  - intros connection signatureInfo rest cursor u io0 flow io1 evs Hinv Hbody.
    destruct (getParsedTransaction connection (signature signatureInfo) 0
                (world io0)) as [response w] eqn:Hfetch.
    rewrite (@part000_pass _ _ platform connection signatureInfo cursor u
               io0 response w Hfetch) in Hbody.
    injection Hbody as <- <-. eexists. split; [reflexivity |].
    rewrite listed_slot_changes_app, slot_reports_app, part000_pass_slots,
      part000_pass_lists_no_slots.
    rewrite app_nil_r, Hinv, <- app_assoc. f_equal. cbn [map slot_changes].
    destruct (Z.eqb_spec cursor (slot signatureInfo)) as [-> | Hne];
      reflexivity.
  - reflexivity.
  - destruct (Connection_new platform url "confirmed").
    + destruct outcome; [now destruct Hres | now symmetry].
    + destruct Hres as (_ & ->). unfold events_since.
      now rewrite skipn_all.
Qed.

Lemma X6_witness :
  Part000.getInteractingAddresses Fixture.platform Fixture.url
    ["Program2"; "Program3"] Fixture.start
  = (fst Fixture.skip_run, snd Fixture.skip_run)
  /\ slot_reports (events_since Fixture.start (snd Fixture.skip_run))
     = [5%Z; 4%Z; 7%Z; 6%Z].
Proof.
  assert (H : Part000.getInteractingAddresses Fixture.platform Fixture.url
                ["Program2"; "Program3"] Fixture.start
              = (fst Fixture.skip_run, snd Fixture.skip_run))
    by (vm_compute; reflexivity).
  split; [exact H |].
  exact (eq_trans
           (@X6_part000_reports_slot_changes _ _ Fixture.platform
              Fixture.url ["Program2"; "Program3"] Fixture.start _ _ H)
           eq_refl).
Defined.

(** ** The entry point *)

Section EntryPoint.

Variables PublicKey World : Type.
Variable platform : Platform PublicKey World.

Lemma write_attempts_app (a b : list (Event PublicKey)) :
  write_attempts (a ++ b) = write_attempts a ++ write_attempts b.
Proof. apply flat_map_app. Qed.

(** getInteractingAddresses itself never writes a file. *)
Lemma run_writes_nothing (script : Script) (url : string)
    (contracts : list string) (io : IO PublicKey World)
    (outcome : Outcome) (io' : IO PublicKey World) :
  run_script platform script url contracts io = (outcome, io') ->
  write_attempts (events_since io io') = [].
Proof.
  intros Hrun.
  pose proof (@run_script_rule _ _ platform script url contracts io outcome io'
                (fun evs _ => write_attempts evs = [])
                (fun _ evs _ => write_attempts evs = [])
                (fun evs _ => write_attempts evs = [])
                (fun evs _ => write_attempts evs = [])) as Hrule.
  cbv beta in Hrule.
  assert (Hgoal := fun a b c d e f g => Hrule a b c d e f g Hrun).
  clear Hrule.
  match type of Hgoal with
  | _ -> _ -> _ -> _ -> _ -> _ -> _ -> ?C =>
      assert (Hres : C); [apply Hgoal |]
  end.
  - intros evs u contract key signatures _ _ Hinv.
    now rewrite write_attempts_app, Hinv.
  - auto.
  - auto.
  - intros evs u contract key error _ _ Hinv.
    now rewrite write_attempts_app, Hinv.
  - intros _ signatureInfo rest cbt u response evs Hinv.
    assert (write_attempts
              (evs ++ main_pass_events platform signatureInfo cbt u response)
            = []).
    { rewrite write_attempts_app, Hinv. unfold write_attempts.
      rewrite main_pass_flat_map by reflexivity.
      now destruct (processed_keys response). }
    now destruct response.
  - intros _ signatureInfo rest cbs u response evs Hinv.
    rewrite write_attempts_app, Hinv. unfold write_attempts.
    rewrite part000_pass_flat_map by reflexivity.
    destruct response as [answer |];
      [destruct (processed_keys (Ok answer)) |]; reflexivity.
  - reflexivity.
  - destruct (Connection_new platform url "confirmed").
    + destruct outcome; [now destruct Hres | exact Hres].
    + destruct Hres as (_ & ->). unfold events_since.
      now rewrite skipn_all.
Qed.

Lemma main_of_unfold (script : Script) (io : IO PublicKey World) :
  main_of platform script io
  = match run_script platform script (rpcUrl_of script) contracts_of_main io
    with
    | (Returned addresses, io1) =>
        let io2 :=
          console Info
            [Sym SymSuccess; Str "Unique interacting addresses: ";
             Strs addresses] io1 in
        match createCSV platform addresses (CSVFilePath_of script) io2 with
        | (Ok _, io3) => io3
        | (Err error, io3) =>
            console Error
              [Sym SymError; Str "Error fetching interacting addresses: ";
               Str error] io3
        end
    | (Thrown error, io1) =>
        console Error
          [Sym SymError; Str "Error fetching interacting addresses: ";
           Str error] io1
    end.
Proof. now destruct script. Qed.

End EntryPoint.

(** X7.  The entry point of either script writes the result file only
    when getInteractingAddresses returns: then it makes exactly one write,
    to the script's CSV path, of the returned list joined by [;] with a
    line feed, and a write that fails is reported on the console under
    "Error fetching interacting addresses".  When getInteractingAddresses
    throws, the error is printed and no file is written, whatever had
    been collected. *)
Theorem X7_entry_point_writes_only_a_returned_result
    (PublicKey World : Type) (platform : Platform PublicKey World)
    (script : Script) (io : IO PublicKey World) (outcome : Outcome)
    (io1 : IO PublicKey World) :
  run_script platform script (rpcUrl_of script) contracts_of_main io
  = (outcome, io1) ->
  match outcome with
  | Thrown error =>
      events_since io (main_of platform script io)
      = events_since io io1
        ++ [Console Error
              [Sym SymError; Str "Error fetching interacting addresses: ";
               Str error]]
      /\ write_attempts (events_since io (main_of platform script io)) = []
  | Returned value =>
      exists response w,
        Deno_writeTextFile platform (CSVFilePath_of script)
          (csvContent value) (world io1) = (response, w)
        /\ events_since io (main_of platform script io)
           = events_since io io1
             ++ [Console Info
                   [Sym SymSuccess; Str "Unique interacting addresses: ";
                    Strs value];
                 Written (CSVFilePath_of script) (csvContent value) response;
                 match response with
                 | Ok _ =>
                     Console Log
                       [Str ("CSV file created at: "
                             ++ CSVFilePath_of script)%string]
                 | Err error =>
                     Console Error
                       [Sym SymError;
                        Str "Error fetching interacting addresses: ";
                        Str error]
                 end]
        /\ write_attempts (events_since io (main_of platform script io))
           = [(CSVFilePath_of script, csvContent value)]
  end.
Proof.
  intros Hrun.
  pose proof (run_script_extends _ _ _ _ _ Hrun) as Ht.
  pose proof (run_writes_nothing _ _ _ _ _ Hrun) as Hw.
  rewrite main_of_unfold, Hrun.
  destruct outcome as [value | error].
  - cbv zeta. unfold createCSV, await_writeTextFile, console, emit.
    cbn [world trace].
    destruct (Deno_writeTextFile platform (CSVFilePath_of script)
                (csvContent value) (world io1)) as [response w].
    exists response, w. split; [reflexivity |].
    assert (Hev : forall final tail,
               trace final = trace io1 ++ tail ->
               events_since io final = events_since io io1 ++ tail).
    { intros final tail Hf. apply events_since_app.
      now rewrite Hf, Ht, <- app_assoc. }
    destruct response as [[] | error]; cbn [trace];
      (erewrite Hev by (rewrite <- !app_assoc; reflexivity));
      (split; [reflexivity |]);
      now rewrite write_attempts_app, Hw.
  - unfold console, emit.
    erewrite events_since_app
      by (cbn [trace]; rewrite Ht, <- app_assoc; reflexivity).
    split; [reflexivity |]. now rewrite write_attempts_app, Hw.
Qed.

Lemma X7_witness :
  run_script Scenario.read_only MainTs (rpcUrl_of MainTs) contracts_of_main
    Fixture.start
  = (Returned [], {| world := 0%Z;
                     trace := trace (snd (run_script Scenario.read_only MainTs
                                            (rpcUrl_of MainTs)
                                            contracts_of_main
                                            Fixture.start)) |})
  /\ write_attempts
       (events_since Fixture.start
          (main_of Scenario.read_only MainTs Fixture.start))
     = [("addreses.csv", LF)].
Proof.
  assert (H : run_script Scenario.read_only MainTs (rpcUrl_of MainTs)
                contracts_of_main Fixture.start
              = (Returned [],
                 {| world := 0%Z;
                    trace := trace (snd (run_script Scenario.read_only MainTs
                                           (rpcUrl_of MainTs)
                                           contracts_of_main
                                           Fixture.start)) |}))
    by (vm_compute; reflexivity).
  split; [exact H |].
  destruct (@X7_entry_point_writes_only_a_returned_result _ _
              Scenario.read_only MainTs Fixture.start _ _ H)
    as (response & w & _ & _ & Hwrites).
  exact Hwrites.
Defined.

(** ** Processing one account list *)

Lemma add_all_absorbs (l : list string) :
  forall s : JSSet.t, (forall x, In x l -> In x s) -> JSSet.add_all s l = s.
Proof.
  induction l as [| x l IH]; intros s Hin; [reflexivity |].
  unfold JSSet.add_all. cbn [fold_left].
  rewrite JSSetFacts.add_present
    by (apply JSSetFacts.has_In, Hin; now left).
  apply IH. intros y Hy. apply Hin. now right.
Qed.

(** X8.  What accountKeys.forEach does to the set is the same in both
    scripts and does not depend on the console: the signer keys are added
    in order.  Processing the same account list again adds nothing, a
    list without signer entries leaves the set as it is, the set stays
    free of duplicates, and the order in which two lists are processed
    changes the order of the set at most, not its members. *)
Theorem X8_forEach_on_the_set
    (PublicKey World : Type) (platform : Platform PublicKey World)
    (keys keys' : list (ParsedMessageAccount PublicKey)) (u : JSSet.t)
    (io io1 io2 io3 : IO PublicKey World) :
  let after k s i := fst (Main.forEach platform k (s, i)) in
  after keys u io = JSSet.add_all u (signers_of platform keys)
  /\ fst (Part000.forEach platform keys (u, io1)) = after keys u io
  /\ after keys (after keys u io) io1 = after keys u io
  /\ (filter signer keys = [] -> after keys u io = u)
  /\ (NoDup u -> NoDup (after keys u io))
  /\ (forall address,
        In address (after keys' (after keys u io) io1)
        <-> In address (after keys (after keys' u io2) io3)).
Proof.
  cbv beta zeta. rewrite !main_forEach_lines, part000_forEach_lines.
  cbn [fst]. split; [reflexivity |]. split; [reflexivity |].
  split; [| split; [| split]].
  - apply add_all_absorbs. intros x Hx.
    apply JSSetFacts.add_all_In. now right.
  - intros Hnone. unfold signers_of. now rewrite Hnone.
  - apply JSSetFacts.add_all_NoDup.
  - intros address. rewrite !JSSetFacts.add_all_In. tauto.
Qed.

(** ** incrementValue *)

Module JSMapFacts.
Import JSMap.

Lemma get_set_same (m : t) (key : string) (value : Z) :
  get (set m key value) key = Some value.
Proof.
  induction m as [| [k v] m IH]; simpl.
  - now rewrite String.eqb_refl.
  - destruct (k =? key) eqn:Hk; simpl; now rewrite Hk.
Qed.

Lemma get_set_other (m : t) (key k' : string) (value : Z) :
  k' <> key -> get (set m key value) k' = get m k'.
Proof.
  intros Hne. induction m as [| [k v] m IH]; simpl.
  - assert ((key =? k') = false) as ->
      by (apply String.eqb_neq; congruence).
    reflexivity.
  - destruct (k =? key) eqn:Hk; simpl.
    + apply String.eqb_eq in Hk as ->.
      assert ((key =? k') = false) as ->
        by (apply String.eqb_neq; congruence).
      reflexivity.
    + destruct (k =? k'); [reflexivity | apply IH].
Qed.

Lemma keys_set (m : t) (key : string) (value : Z) :
  keys (set m key value) = JSSet.add (keys m) key.
Proof.
  unfold JSSet.add, JSSet.has, keys.
  induction m as [| [k v] m IH]; simpl; [reflexivity |].
  rewrite (String.eqb_sym key k).
  destruct (k =? key); simpl; [reflexivity | now rewrite IH; destruct (existsb _ _)].
Qed.

End JSMapFacts.

Lemma incrementValue_get (m : JSMap.t) (key : string) :
  JSMap.get (incrementValue m key) key
  = Some (match JSMap.get m key with
          | Some v => v + 1
          | None => 1
          end)%Z.
Proof.
  unfold incrementValue. rewrite JSMapFacts.get_set_same.
  destruct (JSMap.get m key) as [v |]; [| reflexivity].
  destruct (Z.eqb_spec v 0) as [-> | _]; reflexivity.
Qed.

(** X9.  incrementValue adds one to the count stored under the key, a
    key that is missing counting as 0, and touches nothing else: every
    other key keeps its value, a key that was present keeps its place in
    the iteration order and a new key goes to the end.  The count is
    taken within the range where adding one to a number is exact. *)
Theorem X9_incrementValue_counts_one_key
    (m : JSMap.t) (key : string) :
  (forall v, JSMap.get m key = Some v -> (- MAX_SAFE <= v < MAX_SAFE)%Z) ->
  JSMap.get (incrementValue m key) key
  = Some (match JSMap.get m key with
          | Some v => v + 1
          | None => 1
          end)%Z
  /\ (forall other,
        other <> key ->
        JSMap.get (incrementValue m key) other = JSMap.get m other)
  /\ JSMap.keys (incrementValue m key) = JSSet.add (JSMap.keys m) key.
Proof.
  intros _. split; [apply incrementValue_get |]. split.
  - intros other Hne. unfold incrementValue.
    now apply JSMapFacts.get_set_other.
  - unfold incrementValue. apply JSMapFacts.keys_set.
Qed.

Lemma X9_witness :
  (forall v,
      JSMap.get [("Alice", 2%Z); ("Bob", 0%Z)] "Bob" = Some v ->
      (- MAX_SAFE <= v < MAX_SAFE)%Z)
  /\ JSMap.get (incrementValue [("Alice", 2%Z); ("Bob", 0%Z)] "Bob") "Bob"
     = Some 1%Z
  /\ (forall other,
        other <> "Bob" ->
        JSMap.get (incrementValue [("Alice", 2%Z); ("Bob", 0%Z)] "Bob") other
        = JSMap.get [("Alice", 2%Z); ("Bob", 0%Z)] other)
  /\ JSMap.keys (incrementValue [("Alice", 2%Z); ("Bob", 0%Z)] "Bob")
     = JSSet.add (JSMap.keys [("Alice", 2%Z); ("Bob", 0%Z)]) "Bob".
Proof.
  assert (H : forall v,
             JSMap.get [("Alice", 2%Z); ("Bob", 0%Z)] "Bob" = Some v ->
             (- MAX_SAFE <= v < MAX_SAFE)%Z).
  { intros v Hv. vm_compute in Hv. injection Hv as <-.
    unfold MAX_SAFE. lia. }
  split; [exact H |].
  exact (@X9_incrementValue_counts_one_key [("Alice", 2%Z); ("Bob", 0%Z)]
           "Bob" H).
Defined.

Lemma incrementValue_fold_get (keys : list string) (key : string) :
  forall m : JSMap.t,
    JSMap.get (fold_left incrementValue keys m) key
    = if (count_occ string_dec keys key =? 0)%nat
      then JSMap.get m key
      else Some (match JSMap.get m key with
                 | Some v => v
                 | None => 0
                 end
                 + Z.of_nat (count_occ string_dec keys key))%Z.
Proof.
  induction keys as [| k keys IH]; intros m; [reflexivity |].
  cbn [fold_left count_occ]. rewrite IH.
  destruct (string_dec k key) as [-> | Hne].
  - rewrite incrementValue_get.
    destruct (count_occ string_dec keys key) as [| n] eqn:Hcount;
      cbn [Nat.eqb]; f_equal; destruct (JSMap.get m key); lia.
  - unfold incrementValue at 1 2.
    rewrite JSMapFacts.get_set_other by congruence. reflexivity.
Qed.

Lemma incrementValue_fold_keys (keys : list string) :
  forall m : JSMap.t,
    JSMap.keys (fold_left incrementValue keys m)
    = JSSet.add_all (JSMap.keys m) keys.
Proof.
  induction keys as [| k keys IH]; intros m; [reflexivity |].
  cbn [fold_left]. rewrite IH. unfold incrementValue.
  now rewrite JSMapFacts.keys_set.
Qed.

(** X10.  Calling incrementValue once for every element of a list,
    from the empty map, counts the list: the map holds each distinct
    element once, in the order of first occurrence, with the number of
    its occurrences, and has no entry for anything else.  The list is
    short enough for the counts to be exact numbers. *)
Theorem X10_incrementValue_counts_occurrences
    (keys : list string) (key : string) :
  (Z.of_nat (List.length keys) < MAX_SAFE)%Z ->
  JSMap.get (fold_left incrementValue keys JSMap.empty) key
  = (if in_dec string_dec key keys
     then Some (Z.of_nat (count_occ string_dec keys key))
     else None)
  /\ JSMap.keys (fold_left incrementValue keys JSMap.empty)
     = first_occurrences keys.
Proof.
  intros _. split.
  - rewrite incrementValue_fold_get. simpl.
    destruct (in_dec string_dec key keys) as [Hin | Hout].
    + apply (count_occ_In string_dec) in Hin.
      destruct (count_occ string_dec keys key); [lia | reflexivity].
    + apply (count_occ_not_In string_dec) in Hout. now rewrite Hout.
  - rewrite incrementValue_fold_keys. apply JSSetFacts.add_all_empty.
Qed.

Lemma X10_witness :
  (Z.of_nat (List.length ["a"; "b"; "a"; "c"; "a"]) < MAX_SAFE)%Z
  /\ JSMap.get
       (fold_left incrementValue ["a"; "b"; "a"; "c"; "a"] JSMap.empty) "a"
     = Some 3%Z
  /\ JSMap.keys
       (fold_left incrementValue ["a"; "b"; "a"; "c"; "a"] JSMap.empty)
     = ["a"; "b"; "c"].
Proof.
  assert (H : (Z.of_nat (List.length ["a"; "b"; "a"; "c"; "a"])
               < MAX_SAFE)%Z)
    by (unfold MAX_SAFE; simpl; lia).
  split; [exact H |].
  destruct (@X10_incrementValue_counts_occurrences
              ["a"; "b"; "a"; "c"; "a"] "a" H) as (Hget & Hkeys).
  split; [exact (eq_trans Hget eq_refl) | exact (eq_trans Hkeys eq_refl)].
Defined.

(** ** Giving up against skipping *)

Section Policies.

Variables PublicKey World : Type.
Variable platform : Platform PublicKey World.
Variable connection : Connection PublicKey World.
Hypothesis steady : time_independent connection.

Lemma set_after_pass_extends (u : JSSet.t)
    (response : Attempt (option (ParsedTransactionWithMeta PublicKey))) :
  exists ext, set_after_pass platform u response = u ++ ext.
Proof.
  unfold set_after_pass. destruct (processed_keys response).
  - apply JSSetFacts.add_all_extends.
  - exists []. now rewrite app_nil_r.
Qed.

Lemma part000_signatures_extend (signatures : list ConfirmedSignatureInfo) :
  forall cursor u io,
  exists u' ext,
    fst (for_signatures (Part000.signature_body platform) connection
           signatures cursor u io) = Next u'
    /\ u' = u ++ ext.
Proof.
  induction signatures as [| signatureInfo rest IH]; intros cursor u io;
    cbn [for_signatures].
  - exists u, []. now rewrite app_nil_r.
  - destruct (getParsedTransaction connection (signature signatureInfo) 0
                (world io)) as [response w] eqn:Hfetch.
    rewrite (part000_pass platform _ _ _ _ _ Hfetch).
    destruct (set_after_pass_extends u response) as (ext1 & ->).
    match goal with
    | |- context [for_signatures _ _ rest ?c ?v ?i] =>
        destruct (IH c v i) as (u' & ext2 & Hrun & ->)
    end.
    exists ((u ++ ext1) ++ ext2), (ext1 ++ ext2).
    split; [exact Hrun | now rewrite app_assoc].
Qed.

Lemma signatures_abort_vs_skip (signatures : list ConfirmedSignatureInfo) :
  forall currentBlockTime currentBlockSlot u io_m io_p,
    match
      fst (for_signatures (Main.signature_body platform) connection
             signatures currentBlockTime u io_m),
      fst (for_signatures (Part000.signature_body platform) connection
             signatures currentBlockSlot u io_p)
    with
    | Next u_m, Next u_p => u_m = u_p
    | Return value, Next u_p => exists ext, u_p = value ++ ext
    | _, _ => False
    end.
Proof.
  induction signatures as [| signatureInfo rest IH];
    intros cbt cbs u io_m io_p; [reflexivity |].
  destruct (getParsedTransaction connection (signature signatureInfo) 0
              (world io_m)) as [response w_m] eqn:Hm.
  destruct (getParsedTransaction connection (signature signatureInfo) 0
              (world io_p)) as [response' w_p] eqn:Hp.
  assert (response' = response) as ->.
  { destruct steady as (_ & Hsame).
    specialize (Hsame (signature signatureInfo) 0%Z (world io_m) (world io_p)).
    rewrite Hm, Hp in Hsame. now symmetry. }
  cbn [for_signatures].
  rewrite (main_pass platform _ _ _ _ _ Hm),
    (part000_pass platform _ _ _ _ _ Hp).
  destruct response as [answer | error].
  - apply IH.
  - match goal with
    | |- context [for_signatures _ _ rest ?c ?v ?i] =>
        destruct (part000_signatures_extend rest c v i)
          as (u' & ext & Hrun & ->)
    end.
    rewrite Hrun. cbn [fst]. exists ext. reflexivity.
Qed.

Lemma part000_contracts_extend (contracts : list string) (u : JSSet.t)
    (io : IO PublicKey World) :
  match fst (for_contracts platform 0%Z (Part000.signature_body platform)
               connection contracts u io) with
  | Next u' => exists ext, u' = u ++ ext
  | Return _ => False
  | Raise _ => True
  end.
Proof.
  destruct (for_contracts platform 0%Z (Part000.signature_body platform)
              connection contracts u io) as [flow io'] eqn:Hrun.
  change (run_contracts platform Part000Ts connection contracts u io
          = (flow, io')) in Hrun.
  apply run_contracts_spec in Hrun as (evs & _ & _ & _ & Hflow).
  cbn [fst]. destruct flow as [u' | value | error]; [| | exact I].
  - destruct Hflow as (-> & _). apply JSSetFacts.add_all_extends.
  - now destruct Hflow as (pre & a & c & _ & ? & _).
Qed.

Lemma contracts_abort_vs_skip (contracts : list string) :
  forall u io_m io_p,
    match
      fst (for_contracts platform (JsNumber 0%Z) (Main.signature_body platform)
             connection contracts u io_m),
      fst (for_contracts platform 0%Z (Part000.signature_body platform)
             connection contracts u io_p)
    with
    | Next u_m, Next u_p => u_m = u_p
    | Raise e_m, Raise e_p => e_m = e_p
    | Return value, Next u_p => exists ext, u_p = value ++ ext
    | Return _, Raise _ => True
    | _, _ => False
    end.
Proof.
  induction contracts as [| contract rest IH]; intros u io_m io_p;
    [reflexivity |].
  cbn [for_contracts]. unfold contract_body.
  destruct (PublicKey_new platform contract) as [key | error];
    [| reflexivity].
  unfold await_getSignaturesForAddress. cbn [world trace console emit].
  destruct (getSignaturesForAddress connection key pageOptions (world io_m))
    as [listed w_m] eqn:Hm.
  destruct (getSignaturesForAddress connection key pageOptions (world io_p))
    as [listed' w_p] eqn:Hp.
  assert (listed' = listed) as ->.
  { destruct steady as (Hsame & _).
    specialize (Hsame key pageOptions (world io_m) (world io_p)).
    rewrite Hm, Hp in Hsame. now symmetry. }
  destruct listed as [signatures | error]; [| reflexivity].
  match goal with
  | |- context [for_signatures (Main.signature_body platform) _ _ ?c ?v ?i] =>
      match goal with
      | |- context [for_signatures (Part000.signature_body platform) _ _
                      ?c' _ ?i'] =>
          pose proof (signatures_abort_vs_skip signatures c c' v i i')
            as Hinner;
          destruct (for_signatures (Main.signature_body platform) connection
                      signatures c v i) as [flow_m io_m1];
          destruct (for_signatures (Part000.signature_body platform)
                      connection signatures c' v i') as [flow_p io_p1]
      end
  end.
  cbn [fst] in Hinner.
  destruct flow_m as [u_m | value | e_m];
    destruct flow_p as [u_p | value_p | e_p]; try contradiction.
  - subst u_p. apply IH.
  - destruct Hinner as (ext & ->).
    pose proof (part000_contracts_extend rest (value ++ ext) io_p1) as Hrest.
    destruct (for_contracts platform 0%Z (Part000.signature_body platform)
                connection rest (value ++ ext) io_p1) as [flow io'].
    cbn [fst] in *. destruct flow as [u' | v | e]; [| contradiction | exact I].
    destruct Hrest as (ext' & ->). exists (ext ++ ext').
    now rewrite app_assoc.
Qed.

End Policies.

(** X11.  On a ledger whose answers do not depend on time, the two
    scripts differ only by what src/main.ts gives up: when both return,
    the list of main.ts is a prefix of the list of part_000; when no
    fetch fails in the run of main.ts, both end the same way with the
    same list or the same error; and whenever main.ts throws, part_000
    throws the same error. *)
Theorem X11_abort_result_is_prefix_of_skip_result
    (PublicKey World : Type) (platform : Platform PublicKey World)
    (connection : Connection PublicKey World) (url : string)
    (contracts : list string) (io_m io_p : IO PublicKey World)
    (outcome_m outcome_p : Outcome) (io_m' io_p' : IO PublicKey World) :
  Connection_new platform url "confirmed" = Ok connection ->
  time_independent connection ->
  Main.getInteractingAddresses platform url contracts io_m
  = (outcome_m, io_m') ->
  Part000.getInteractingAddresses platform url contracts io_p
  = (outcome_p, io_p') ->
  (forall value_m value_p,
      outcome_m = Returned value_m -> outcome_p = Returned value_p ->
      exists ext, value_p = value_m ++ ext)
  /\ (filter (@is_rejected_fetch PublicKey) (events_since io_m io_m') = [] ->
      outcome_m = outcome_p)
  /\ (forall error, outcome_m = Thrown error -> outcome_p = Thrown error).
Proof.
  intros Hconn Hsteady Hm Hp.
  unfold Main.getInteractingAddresses, Part000.getInteractingAddresses,
    getInteractingAddresses in Hm, Hp.
  rewrite Hconn in Hm, Hp.
  pose proof (contracts_abort_vs_skip platform Hsteady contracts JSSet.empty
                io_m io_p) as Hrel.
  destruct (for_contracts platform (JsNumber 0%Z) (Main.signature_body platform)
              connection contracts JSSet.empty io_m)
    as [flow_m io_m1] eqn:Hloop.
  destruct (for_contracts platform 0%Z (Part000.signature_body platform)
              connection contracts JSSet.empty io_p) as [flow_p io_p1].
  cbn [fst] in Hrel.
  change (run_contracts platform MainTs connection contracts JSSet.empty io_m
          = (flow_m, io_m1)) in Hloop.
  apply run_contracts_spec in Hloop as (evs & Ht & _ & _ & Hflow).
  destruct flow_m as [u_m | value | e_m];
    destruct flow_p as [u_p | value_p | e_p]; try contradiction;
    injection Hm as <- <-; injection Hp as <- <-.
  - subst u_p. repeat split; try discriminate.
    intros vm vp [= <-] [= <-]. exists []. now rewrite app_nil_r.
  - destruct Hrel as (ext & ->). split; [| split]; try discriminate.
    + intros vm vp [= <-] [= <-]. now exists ext.
    + intros Hclean. exfalso.
      rewrite (@events_since_app _ _ _ _ _ Ht) in Hclean.
      destruct Hflow as (pre & a & c & -> & Ha & _).
      rewrite filter_app in Hclean. simpl in Hclean, Ha.
      rewrite Ha in Hclean. now apply app_eq_nil in Hclean as [_ ?].
  - split; [| split]; try discriminate.
    intros Hclean. exfalso.
    rewrite (@events_since_app _ _ _ _ _ Ht) in Hclean.
    destruct Hflow as (pre & a & c & -> & Ha & _).
    rewrite filter_app in Hclean. simpl in Hclean, Ha.
    rewrite Ha in Hclean. now apply app_eq_nil in Hclean as [_ ?].
  - subst e_p. repeat split; try discriminate. auto.
Qed.

Lemma X11_witness :
  (Connection_new Fixture.platform Fixture.url "confirmed"
   = Ok Fixture.connection
   /\ time_independent Fixture.connection)
  /\ exists ext,
       fst (Part000.getInteractingAddresses Fixture.platform Fixture.url
              ["Program1"; "Program2"; "Program3"] Fixture.start)
       = Returned (["Alice"; "Bob"; "Carol"] ++ ext).
Proof.
  assert (H1 : Connection_new Fixture.platform Fixture.url "confirmed"
               = Ok Fixture.connection) by reflexivity.
  assert (H2 : time_independent Fixture.connection)
    by (split; intros; reflexivity).
  split; [split; assumption |].
  destruct (@X11_abort_result_is_prefix_of_skip_result _ _ Fixture.platform
              Fixture.connection Fixture.url
              ["Program1"; "Program2"; "Program3"] Fixture.start Fixture.start
              (Returned ["Alice"; "Bob"; "Carol"])
              (fst (Part000.getInteractingAddresses Fixture.platform
                      Fixture.url ["Program1"; "Program2"; "Program3"]
                      Fixture.start))
              (snd Fixture.abort_run)
              (snd (Part000.getInteractingAddresses Fixture.platform
                      Fixture.url ["Program1"; "Program2"; "Program3"]
                      Fixture.start))
              H1 H2) as (Hprefix & _).
  - vm_compute. reflexivity.
  - vm_compute. reflexivity.
  - destruct (Hprefix ["Alice"; "Bob"; "Carol"] ["Alice"; "Bob"; "Carol"]
                eq_refl) as (ext & Hext).
    + vm_compute. reflexivity.
    + exists ext. rewrite <- Hext. vm_compute. reflexivity.
Defined.
